(** * secureoperator: the simple DNS client (dns_client.go)

    A shallow embedding of [ParseEndpoint], [Endpoints.Random],
    [NewSimpleDNSClient] and [SimpleDNSClient.LookupIP], and the properties
    of the endpoint parser, the TTL cache and the server fail-over loop.

    Conventions of the embedding.
    - Go integers are [Z] with their wrap-around written out ([wrap_u16],
      [wrap_i64]); a [time.Duration] is a number of nanoseconds.
    - A [time.Time] is an integer count of nanoseconds on the process
      clock; [Time.Add] and [Time.After] are [+] and [>].
    - A Go [error] value is an [option error], [None] being [nil]; a nil
      slice is the empty list; a nil [*dns.Msg] is [None].
    - The cache map is a [gmap string dnsCacheRecord]; the mutex protects
      single reads and writes, which a sequential model keeps atomic.
    - The outside world (the clock and the network behind [exchange]) is an
      abstract state threaded through the calls; every exchange performed
      is recorded in a trace. *)

From Stdlib Require Import ZArith Lia Ascii String List Bool DecimalString.
From Stdlib Require DecimalN.
From stdpp Require Import base option gmap strings list.

Local Open Scope string_scope.
Local Open Scope list_scope.
Local Open Scope Z_scope.

(** ** Errors *)

(** The package's sentinel errors, the error of [fmt.Errorf], and the errors
    an exchange can return: a [net.Error] carries its [Timeout()] answer,
    any other error value does not implement [net.Error]. *)
Inductive error : Type :=
| ErrInvalidEndpointString
| ErrFailedParsingIP
| ErrFailedParsingPort
| ErrAllServersFailed
| Errorf (msg : string)
| NetError (timeout : bool) (msg : string)
| PlainError (msg : string).

(** [nerr, ok := err.(net.Error); ok && nerr.Timeout()] *)
Definition isTimeout (err : option error) : bool :=
  match err with
  | Some (NetError t _) => t
  | _ => false
  end.

(** ** Machine integers *)

Definition wrap_u16 (z : Z) : Z := z mod 2 ^ 16.
Definition wrap_i64 (z : Z) : Z := (z + 2 ^ 63) mod 2 ^ 64 - 2 ^ 63.
Definition maxUint32 : Z := 2 ^ 32 - 1.

(** ** Endpoints *)

(** [net.IP] is a byte slice. *)
Definition IP : Type := list Z.

Record Endpoint : Type := mkEndpoint { ep_IP : IP; ep_Port : Z }.

(** The zero value of the named result [ep]. *)
Definition zeroEndpoint : Endpoint := mkEndpoint [] 0.

Definition Endpoints : Type := list Endpoint.

(** *** strings.Split on a one-byte separator *)

Fixpoint Split (sep : ascii) (s : string) : list string :=
  match s with
  | EmptyString => [EmptyString]
  | String c rest =>
      if Ascii.eqb c sep then EmptyString :: Split sep rest
      else match Split sep rest with
           | hd :: tl => String c hd :: tl
           | [] => [String c EmptyString]
           end
  end.

(** The number of occurrences of [sep] in [s] ([strings.Count]). *)
Fixpoint count (sep : ascii) (s : string) : nat :=
  match s with
  | EmptyString => O
  | String c rest => (if Ascii.eqb c sep then 1 else 0) + count sep rest
  end.

(** *** strconv.ParseUint(s, 10, bitSize)

    The loop of the Go runtime for base 10: every byte must be a decimal
    digit (no sign, no underscore), the empty string is a syntax error, a
    value above the largest [bitSize]-bit number is a range error. Both
    errors are non-nil, which is all [ParseEndpoint] looks at. *)
Definition digitVal (c : ascii) : option Z :=
  let n := Z.of_N (N_of_ascii c) in
  if (48 <=? n) && (n <=? 57) then Some (n - 48) else None.

Fixpoint parseDigits (maxVal : Z) (s : string) (n : Z) : option Z :=
  match s with
  | EmptyString => Some n
  | String c rest =>
      match digitVal c with
      | None => None
      | Some d =>
          let n1 := n * 10 + d in
          if maxVal <? n1 then None else parseDigits maxVal rest n1
      end
  end.

Definition ParseUint10 (bitSize : Z) (s : string) : option Z :=
  match s with
  | EmptyString => None
  | _ => parseDigits (2 ^ bitSize - 1) s 0
  end.

(** *** ParseEndpoint *)

Section Parsing.

(** [net.ParseIP] of the Go runtime: [None] stands for the nil result. *)
Variable ParseIP : string -> option IP.

Definition ParseEndpoint (endpoint : string) (defaultPort : Z)
  : Endpoint * option error :=
  let ep := zeroEndpoint in
  let e := Split ":" endpoint in
  if (2 <? length e)%nat then (ep, Some ErrInvalidEndpointString)
  else
    match ParseIP (nth 0 e EmptyString) with
    | None => (ep, Some ErrFailedParsingIP)
    | Some ip =>
        let ep := mkEndpoint ip defaultPort in
        if (1 <? length e)%nat then
          match ParseUint10 16 (nth 1 e EmptyString) with
          | None => (ep, Some ErrFailedParsingPort)
          | Some i => (mkEndpoint ip (wrap_u16 i), None)
          end
        else (ep, None)
    end.

End Parsing.

(** *** Endpoint.String *)

(** [fmt.Sprintf("%v", port)] for an unsigned integer. *)
Definition formatUint (n : Z) : string :=
  DecimalString.NilZero.string_of_uint (N.to_uint (Z.to_N n)).

(** [net.JoinHostPort]: a host with a colon is taken for an IPv6 literal
    and bracketed. *)
Definition JoinHostPort (host port : string) : string :=
  if (0 <? count ":" host)%nat then ("[" ++ host ++ "]:" ++ port)%string
  else (host ++ ":" ++ port)%string.

(** ** Time *)

Definition Time : Type := Z.
Definition Duration : Type := Z.

Definition Second : Duration := 1000000000.
Definition defaultDNSClientTimeout : Duration := wrap_i64 (10 * Second).

(** [a * b] on [time.Duration], an [int64]. *)
Definition Duration_mul (a b : Duration) : Duration := wrap_i64 (a * b).

Definition Time_Add (t : Time) (d : Duration) : Time := t + d.
Definition Time_After (t u : Time) : bool := u <? t.

(** ** DNS messages, as far as the client looks at them *)

Record RR_Header : Type :=
  mkHeader { Name : string; Rrtype : Z; Ttl : Z }.

(** A resource record is a value of interface [dns.RR]; the client tells
    [*dns.A] from every other dynamic type. *)
Inductive RR : Type :=
| RR_A (Hdr : RR_Header) (A : IP)
| RR_Other (Hdr : RR_Header).

Definition Header (ans : RR) : RR_Header :=
  match ans with
  | RR_A h _ => h
  | RR_Other h => h
  end.

Record Question : Type := mkQuestion { Qname : string; Qtype : Z }.

Record Msg : Type := mkMsg { Questions : list Question; Answer : list RR }.

Definition TypeA : Z := 1.

(** [msg := dns.Msg{}; msg.SetQuestion(name, t)] *)
Definition SetQuestion (name : string) (t : Z) : Msg :=
  mkMsg [mkQuestion name t] [].

(** ** The cache *)

Record dnsCacheRecord : Type :=
  mkRecord { msg : option Msg; ips : list IP; expires : Time }.

Definition zeroRecord : dnsCacheRecord := mkRecord None [] 0.

(** [d.records[key]] with the comma-ok form, and [d.records[key] = rec]. *)
Definition records_Get (records : gmap string dnsCacheRecord) (key : string)
  : dnsCacheRecord * bool :=
  match records !! key with
  | Some rec => (rec, true)
  | None => (zeroRecord, false)
  end.

Definition records_Set (records : gmap string dnsCacheRecord) (key : string)
  (rec : dnsCacheRecord) : gmap string dnsCacheRecord :=
  <[key := rec]> records.

(** ** The client and its surroundings *)

Record DNSClientOptions : Type := mkOptions { Timeout : Duration }.

(** [cache] is a pointer in the source; the map it points to is the
    [sys_records] component of the state below. *)
Record SimpleDNSClient : Type :=
  mkClient { servers : Endpoints; opts : DNSClientOptions }.

(** One call of [exchange]: the deadline of its context, the query and the
    server address. *)
Record Event : Type :=
  EvExchange { ev_timeout : Duration; ev_query : Msg; ev_addr : string }.

(** What the client takes from outside the package: the clock, the
    (replaceable) [exchange] function, and three pure library functions. *)
Class Platform (World : Type) : Type := {
  time_Now : World -> Time * World;
  exchange : Duration -> Msg -> string -> World
             -> (option Msg * option error) * World;
  IP_String : IP -> string;
  Fqdn : string -> string
}.

Record Sys (World : Type) : Type :=
  mkSys { sys_world : World;
          sys_records : gmap string dnsCacheRecord;
          sys_log : list Event }.
Arguments mkSys {World}.
Arguments sys_world {World}.
Arguments sys_records {World}.
Arguments sys_log {World}.

(** What a call does: it returns its two results, or panics. *)
Inductive outcome : Type :=
| Returned (ips : list IP) (err : option error)
| Panicked.

(** State passing over [Sys], with stdpp's monad notation. *)
Definition M (World A : Type) : Type := Sys World -> A * Sys World.

#[global] Instance M_ret {World} : MRet (M World) :=
  fun A (a : A) s => (a, s).

#[global] Instance M_bind {World} : MBind (M World) :=
  fun A B (k : A -> M World B) (m : M World A) s =>
    let (a, s') := m s in k a s'.

(** ** Endpoints.Random *)

Section RandomEndpoint.

Context {Rand : Type}.

(** The draw of the process-wide source of [math/rand] for a positive
    bound. *)
Variable draw : Z -> Rand -> Z * Rand.

(** [rand.Intn(n)]: it panics ([None]) if [n <= 0]. *)
Definition rand_Intn (n : Z) (g : Rand) : option Z * Rand :=
  if n <=? 0 then (None, g)
  else let (k, g') := draw n g in (Some k, g').

(** [e[i]]: an index out of range panics ([None]). *)
Definition index (e : Endpoints) (i : Z) : option Endpoint :=
  if (0 <=? i) && (i <? Z.of_nat (length e)) then e !! Z.to_nat i
  else None.

Definition Random (e : Endpoints) (g : Rand) : option Endpoint * Rand :=
  match rand_Intn (Z.of_nat (length e)) g with
  | (Some i, g') => (index e i, g')
  | (None, g') => (None, g')
  end.

End RandomEndpoint.

(** ** NewSimpleDNSClient and LookupIP *)

Section Client.

Context {World : Type} `{Platform World}.

Definition Endpoint_String (e : Endpoint) : string :=
  JoinHostPort (IP_String (ep_IP e)) (formatUint (ep_Port e)).

(** [dnsCache.Get] and [dnsCache.Set] *)
Definition cache_Get (key : string) : M World (dnsCacheRecord * bool) :=
  fun s => (records_Get (sys_records s) key, s).

Definition cache_Set (key : string) (rec : dnsCacheRecord) : M World unit :=
  fun s => (tt, mkSys (sys_world s)
                      (records_Set (sys_records s) key rec)
                      (sys_log s)).

(** [newDNSCache()]: the client's map starts empty. *)
Definition newDNSCache : M World unit :=
  fun s => (tt, mkSys (sys_world s) ∅ (sys_log s)).

Definition Now : M World Time :=
  fun s => let (t, w) := time_Now (sys_world s) in
           (t, mkSys w (sys_records s) (sys_log s)).

(** [exchange(ctx, &msg, addr)] with [ctx] carrying the deadline [d]. *)
Definition callExchange (d : Duration) (m : Msg) (addr : string)
  : M World (option Msg * option error) :=
  fun s => let (res, w) := exchange d m addr (sys_world s) in
           (res, mkSys w (sys_records s)
                       (sys_log s ++ [EvExchange d m addr])).

Definition NewSimpleDNSClient (servers : Endpoints)
  (opts : option DNSClientOptions)
  : M World (option SimpleDNSClient * option error) :=
  if (length servers <? 1)%nat then
    mret (None, Some (Errorf "at least one endpoint server is required"))
  else
    let opts := match opts with
                | None => mkOptions 0
                | Some o => o
                end in
    let opts := if Timeout opts =? 0 then mkOptions defaultDNSClientTimeout
                else opts in
    _ ← newDNSCache;
    mret (Some (mkClient servers opts), None).

(** The body of the loop over [r.Answer]; the accumulator is
    [(rec.ips, shortestTTL)]. *)
Definition scanAnswer (acc : list IP * Z) (ans : RR) : list IP * Z :=
  let '(ips, shortestTTL) := acc in
  let h := Header ans in
  match ans with
  | RR_A _ a =>
      (ips ++ [a],
       if (shortestTTL =? 0) || (Ttl h <? shortestTTL) then Ttl h
       else shortestTTL)
  | RR_Other _ => (ips, shortestTTL)
  end.

Definition scanAnswers (answers : list RR) : list IP * Z :=
  fold_left scanAnswer answers ([], 0).

(** The loop over [c.servers]. *)
Fixpoint lookupServers (timeout : Duration) (host : string)
  (srvs : list Endpoint) : M World outcome :=
  match srvs with
  | [] => mret (Returned [] (Some ErrAllServersFailed))
  | server :: rest =>
      let m := SetQuestion (Fqdn host) TypeA in
      '(r, err) ← callExchange timeout m (Endpoint_String server);
      if isTimeout err then lookupServers timeout host rest
      else
        match err with
        | Some e => mret (Returned [] (Some e))
        | None =>
            match r with
            | None => mret Panicked
            | Some r =>
                let '(ips, shortestTTL) := scanAnswers (Answer r) in
                now ← Now;
                let rec :=
                  mkRecord (Some r) ips
                    (Time_Add now (Duration_mul Second shortestTTL)) in
                _ ← cache_Set host rec;
                mret (Returned ips None)
            end
        end
  end.

(** The cache check: the stored entry and whether it is still good.
    The clock is read only when an entry was found. *)
Definition cacheLookup (host : string) : M World (dnsCacheRecord * bool) :=
  '(entry, ok) ← cache_Get host;
  if ok : bool then
    now ← Now; mret (entry, Time_After (expires entry) now)
  else mret (entry, false).

Definition LookupIP (c : SimpleDNSClient) (host : string) : M World outcome :=
  '(entry, good) ← cacheLookup host;
  if good : bool then mret (Returned (ips entry) None)
  else lookupServers (Timeout (opts c)) host (servers c).

(** *** Vocabulary of the statements *)

(** The exchange the loop performs for one server. *)
Definition attempt (timeout : Duration) (host : string) (server : Endpoint)
  : Event :=
  EvExchange timeout (SetQuestion (Fqdn host) TypeA) (Endpoint_String server).

(** The world after every server of [srvs], asked in turn from world [w],
    has timed out; [None] if one of them did not. *)
Fixpoint timeOuts (timeout : Duration) (host : string)
  (srvs : list Endpoint) (w : World) : option World :=
  match srvs with
  | [] => Some w
  | server :: rest =>
      let '(res, w1) :=
        exchange timeout (SetQuestion (Fqdn host) TypeA)
                 (Endpoint_String server) w in
      if isTimeout (snd res) then timeOuts timeout host rest w1 else None
  end.

End Client.

(** The A records of an answer section, their addresses and their TTLs. *)
Definition isA (ans : RR) : bool :=
  match ans with
  | RR_A _ _ => true
  | RR_Other _ => false
  end.

Definition addresses (answers : list RR) : list IP :=
  flat_map (fun ans => match ans with
                       | RR_A _ a => [a]
                       | RR_Other _ => []
                       end) answers.

Definition addressTTLs (answers : list RR) : list Z :=
  map (fun ans => Ttl (Header ans)) (List.filter isA answers).

(** The least element of a list of TTLs, [0] for the empty list. *)
Definition minTTL (ttls : list Z) : Z :=
  match ttls with
  | [] => 0
  | t :: rest => fold_right Z.min t rest
  end.

(** The update of [shortestTTL] for one A record of TTL [t]. *)
Definition stepTTL (shortestTTL t : Z) : Z :=
  if (shortestTTL =? 0) || (t <? shortestTTL) then t else shortestTTL.

Definition validTTL (t : Z) : Prop := 0 <= t <= maxUint32.

(** The number a string of decimal digits stands for, read from the left
    with [acc] as the value of the digits before it. *)
Fixpoint uintValue (d : Decimal.uint) (acc : Z) : Z :=
  match d with
  | Decimal.Nil => acc
  | Decimal.D0 l => uintValue l (acc * 10 + 0)
  | Decimal.D1 l => uintValue l (acc * 10 + 1)
  | Decimal.D2 l => uintValue l (acc * 10 + 2)
  | Decimal.D3 l => uintValue l (acc * 10 + 3)
  | Decimal.D4 l => uintValue l (acc * 10 + 4)
  | Decimal.D5 l => uintValue l (acc * 10 + 5)
  | Decimal.D6 l => uintValue l (acc * 10 + 6)
  | Decimal.D7 l => uintValue l (acc * 10 + 7)
  | Decimal.D8 l => uintValue l (acc * 10 + 8)
  | Decimal.D9 l => uintValue l (acc * 10 + 9)
  end.

(** Whether every byte of [s] is a decimal digit. *)
Fixpoint allDigits (s : string) : bool :=
  match s with
  | EmptyString => true
  | String c rest =>
      match digitVal c with
      | Some _ => allDigits rest
      | None => false
      end
  end.

(** ** Concrete surroundings for the examples *)

Module Demo.

(** Dotted-quad reading of an IPv4 literal, in the 16-byte form. *)
Definition parseIPv4 (s : string) : option IP :=
  match Split "." s with
  | [a; b; c; d] =>
      match ParseUint10 8 a, ParseUint10 8 b, ParseUint10 8 c,
            ParseUint10 8 d with
      | Some a, Some b, Some c, Some d =>
          Some [0; 0; 0; 0; 0; 0; 0; 0; 0; 0; 255; 255; a; b; c; d]
      | _, _, _, _ => None
      end
  | _ => None
  end.

Definition showIP (ip : IP) : string :=
  String.concat "." (map formatUint (skipn 12 ip)).

(** A scripted network: the clock, and for each coming exchange how long
    it takes and what it returns. An exhausted script times out. *)
Definition World : Type :=
  (Time * list (Duration * (option Msg * option error)))%type.

Definition ioTimeout : error := NetError true "i/o timeout".

#[global] Instance platform : Platform World := {|
  time_Now w := (fst w, w);
  exchange d m addr w :=
    match snd w with
    | [] => ((None, Some ioTimeout), (fst w + d, []))
    | (took, res) :: rest => (res, (fst w + took, rest))
    end;
  IP_String := showIP;
  Fqdn s := (s ++ ".")%string
|}.

(** The seed is the next draw, reduced to the bound. *)
Definition draw (n : Z) (g : Z) : Z * Z := (g mod n, g + 1).

Definition ip1 : IP := [0; 0; 0; 0; 0; 0; 0; 0; 0; 0; 255; 255; 10; 0; 0; 1].
Definition ip2 : IP := [0; 0; 0; 0; 0; 0; 0; 0; 0; 0; 255; 255; 10; 0; 0; 2].
Definition ip3 : IP := [0; 0; 0; 0; 0; 0; 0; 0; 0; 0; 255; 255; 10; 0; 0; 3].

Definition srv1 : Endpoint := mkEndpoint ip1 53.
Definition srv2 : Endpoint := mkEndpoint ip2 53.
Definition srv3 : Endpoint := mkEndpoint ip3 5353.

Definition client : SimpleDNSClient :=
  mkClient [srv1; srv2; srv3] (mkOptions defaultDNSClientTimeout).

Definition rrA (ttl : Z) (a : IP) : RR :=
  RR_A (mkHeader "example.org." TypeA ttl) a.

Definition rrCNAME (ttl : Z) : RR :=
  RR_Other (mkHeader "example.org." 5 ttl).

Definition reply (answers : list RR) : option Msg * option error :=
  (Some (mkMsg [mkQuestion "example.org." TypeA] answers), None).

Definition timedOut : option Msg * option error := (None, Some ioTimeout).

Definition refused : option Msg * option error :=
  (None, Some (PlainError "connection refused")).

Definition host : string := "example.org".

Definition start (script : list (Duration * (option Msg * option error)))
  : Sys World :=
  mkSys (0, script) ∅ [].

(** The same network with addresses printed as an IPv6 literal. *)
Definition platform6 : Platform World := {|
  time_Now := @time_Now World platform;
  exchange := @exchange World platform;
  IP_String := fun _ => "::1";
  Fqdn := @Fqdn World platform
|}.


(** A cache that already holds a record for [host], at time 100. *)
Definition freshRecord : dnsCacheRecord := mkRecord None [ip1] 200.
Definition staleRecord : dnsCacheRecord := mkRecord None [ip1] 50.

Definition cached (rec : dnsCacheRecord) : Sys World :=
  mkSys (100, [(7, reply [rrA 30 ip2])]) {[ host := rec ]} [].

Definition twoAddresses : Msg :=
  mkMsg [mkQuestion "example.org." TypeA] [rrA 30 ip1; rrA 10 ip2].

Definition noAddress : Msg :=
  mkMsg [mkQuestion "example.org." TypeA] [rrCNAME 5].

End Demo.

(** * Properties *)

(** ** Splitting and number parsing *)

Lemma Split_length sep s : length (Split sep s) = S (count sep s).
Proof.
  induction s as [|c rest IH]; simpl; [reflexivity|].
  destruct (Ascii.eqb c sep); simpl.
  - now rewrite IH.
  - destruct (Split sep rest); simpl in *; congruence.
Qed.

Lemma Split_no_sep sep s : count sep s = O -> Split sep s = [s].
Proof.
  induction s as [|c rest IH]; simpl; [reflexivity|].
  destruct (Ascii.eqb c sep); simpl; [discriminate|].
  intros Hc. now rewrite (IH Hc).
Qed.

Lemma Split_app sep host port :
  count sep host = O ->
  Split sep (host ++ String sep port) = host :: Split sep port.
Proof.
  induction host as [|c rest IH]; simpl.
  - intros _. now rewrite Ascii.eqb_refl.
  - destruct (Ascii.eqb c sep); simpl; [discriminate|].
    intros Hc. now rewrite (IH Hc).
Qed.

(** A string with exactly one separator is a host, the separator and a
    port. *)
Lemma one_sep_shape sep s :
  count sep s = 1%nat ->
  exists host port,
    s = (host ++ String sep port)%string /\
    count sep host = O /\ count sep port = O.
Proof.
  induction s as [|c rest IH]; simpl; [discriminate|].
  destruct (Ascii.eqb_spec c sep) as [->|Hne]; simpl; intros Hc.
  - exists EmptyString, rest. repeat split. lia.
  - destruct (IH Hc) as (host & port & -> & Hh & Hp).
    exists (String c host), port. simpl.
    destruct (Ascii.eqb_spec c sep); [contradiction|]. now repeat split.
Qed.

Lemma digitVal_range c d : digitVal c = Some d -> 0 <= d <= 9.
Proof.
  unfold digitVal.
  destruct (_ && _) eqn:E; [|discriminate].
  intros [= <-]. apply andb_prop in E. lia.
Qed.

Lemma parseDigits_range maxVal s n p :
  0 <= n <= maxVal -> parseDigits maxVal s n = Some p -> 0 <= p <= maxVal.
Proof.
  revert n. induction s as [|c rest IH]; simpl; intros n Hn.
  - intros [= <-]. exact Hn.
  - destruct (digitVal c) as [d|] eqn:Hd; [|discriminate].
    apply digitVal_range in Hd.
    destruct (maxVal <? n * 10 + d) eqn:Hlt; [discriminate|].
    apply IH. lia.
Qed.

Lemma ParseUint10_range bits s p :
  0 <= bits -> ParseUint10 bits s = Some p -> 0 <= p < 2 ^ bits.
Proof.
  intros Hb. unfold ParseUint10.
  assert (0 < 2 ^ bits) by (apply Z.pow_pos_nonneg; lia).
  destruct s; [discriminate|].
  intros Hp. apply parseDigits_range in Hp; lia.
Qed.

Lemma wrap_u16_small p : 0 <= p < 2 ^ 16 -> wrap_u16 p = p.
Proof. intros Hp. unfold wrap_u16. now apply Z.mod_small. Qed.

(** ** ParseEndpoint *)

Section ParsingFacts.

Variable ParseIP : string -> option IP.

Lemma ParseEndpoint_no_colon endpoint defaultPort :
  count ":" endpoint = O ->
  ParseEndpoint ParseIP endpoint defaultPort =
    match ParseIP endpoint with
    | None => (zeroEndpoint, Some ErrFailedParsingIP)
    | Some ip => (mkEndpoint ip defaultPort, None)
    end.
Proof.
  intros Hc. unfold ParseEndpoint.
  rewrite (Split_no_sep _ _ Hc). simpl.
  now destruct (ParseIP endpoint).
Qed.

Lemma ParseEndpoint_one_colon host port defaultPort :
  count ":" host = O -> count ":" port = O ->
  ParseEndpoint ParseIP (host ++ ":" ++ port) defaultPort =
    match ParseIP host with
    | None => (zeroEndpoint, Some ErrFailedParsingIP)
    | Some ip =>
        match ParseUint10 16 port with
        | None => (mkEndpoint ip defaultPort, Some ErrFailedParsingPort)
        | Some p => (mkEndpoint ip p, None)
        end
    end.
Proof.
  intros Hh Hp. unfold ParseEndpoint.
  change (host ++ ":" ++ port)%string with (host ++ String ":" port)%string.
  rewrite (Split_app _ _ _ Hh), (Split_no_sep _ _ Hp). simpl.
  destruct (ParseIP host) as [ip|]; [|reflexivity].
  destruct (ParseUint10 16 port) as [p|] eqn:Hport; [|reflexivity].
  apply ParseUint10_range in Hport; [|lia].
  now rewrite wrap_u16_small.
Qed.

Lemma ParseEndpoint_many_colons endpoint defaultPort :
  (1 < count ":" endpoint)%nat ->
  ParseEndpoint ParseIP endpoint defaultPort =
    (zeroEndpoint, Some ErrInvalidEndpointString).
Proof.
  intros Hc. unfold ParseEndpoint. rewrite Split_length.
  destruct (Nat.ltb_spec 2 (S (count ":" endpoint))); [reflexivity|lia].
Qed.

(** C3. More than one colon gives [ErrInvalidEndpointString]; otherwise a
    host segment that is no IP literal gives [ErrFailedParsingIP];
    otherwise a port segment that is no unsigned 16-bit decimal gives
    [ErrFailedParsingPort]; a valid [ip:port] string gives exactly that IP
    and port; a valid IP without a port segment gives that IP with the
    default port. A string with one colon is a colon-free host, the colon
    and a colon-free port, so the cases cover every input. *)
Theorem C3_ParseEndpoint_cases (host port : string) (defaultPort : Z) :
  count ":" host = O -> count ":" port = O ->
  (forall endpoint, (1 < count ":" endpoint)%nat ->
     ParseEndpoint ParseIP endpoint defaultPort =
       (zeroEndpoint, Some ErrInvalidEndpointString)) /\
  (ParseIP host = None ->
     snd (ParseEndpoint ParseIP host defaultPort) = Some ErrFailedParsingIP /\
     snd (ParseEndpoint ParseIP (host ++ ":" ++ port) defaultPort) =
       Some ErrFailedParsingIP) /\
  (forall ip, ParseIP host = Some ip -> ParseUint10 16 port = None ->
     snd (ParseEndpoint ParseIP (host ++ ":" ++ port) defaultPort) =
       Some ErrFailedParsingPort) /\
  (forall ip p, ParseIP host = Some ip -> ParseUint10 16 port = Some p ->
     0 <= p < 2 ^ 16 /\
     ParseEndpoint ParseIP (host ++ ":" ++ port) defaultPort =
       (mkEndpoint ip p, None)) /\
  (forall ip, ParseIP host = Some ip ->
     ParseEndpoint ParseIP host defaultPort =
       (mkEndpoint ip defaultPort, None)) /\
  (forall endpoint, count ":" endpoint = 1%nat ->
     exists h p, endpoint = (h ++ ":" ++ p)%string /\
                 count ":" h = O /\ count ":" p = O).
Proof.
  intros Hh Hp.
  pose proof (ParseEndpoint_no_colon host defaultPort Hh) as H0.
  pose proof (ParseEndpoint_one_colon host port defaultPort Hh Hp) as H1.
  split; [intros endpoint; apply ParseEndpoint_many_colons|].
  split; [intros Hip; rewrite H0, H1, Hip; now split|].
  split; [intros ip Hip Hport; now rewrite H1, Hip, Hport|].
  split.
  - intros ip p Hip Hport. rewrite H1, Hip, Hport. split; [|reflexivity].
    apply ParseUint10_range in Hport; lia.
  - split; [intros ip Hip; now rewrite H0, Hip|].
    intros endpoint Hone. exact (one_sep_shape ":" endpoint Hone).
Qed.

End ParsingFacts.


(** ** The loop over the answer section *)

Lemma scan_fold_ips answers ips0 ttl0 :
  fst (fold_left scanAnswer answers (ips0, ttl0)) = ips0 ++ addresses answers.
Proof.
  revert ips0 ttl0. induction answers as [|ans rest IH]; intros ips0 ttl0.
  - simpl. now rewrite app_nil_r.
  - destruct ans as [h a|h]; simpl.
    + rewrite IH. now rewrite <- app_assoc.
    + apply IH.
Qed.

Lemma scan_fold_ttl answers ips0 ttl0 :
  snd (fold_left scanAnswer answers (ips0, ttl0)) =
    fold_left stepTTL (addressTTLs answers) ttl0.
Proof.
  revert ips0 ttl0. induction answers as [|ans rest IH]; intros ips0 ttl0.
  - reflexivity.
  - destruct ans as [h a|h]; simpl.
    + rewrite IH. reflexivity.
    + apply IH.
Qed.

Lemma scanAnswers_eq answers :
  scanAnswers answers =
    (addresses answers, fold_left stepTTL (addressTTLs answers) 0).
Proof.
  unfold scanAnswers.
  rewrite (surjective_pairing (fold_left scanAnswer answers ([], 0))).
  now rewrite scan_fold_ips, scan_fold_ttl.
Qed.

Lemma addresses_filter answers :
  addresses (List.filter isA answers) = addresses answers.
Proof.
  induction answers as [|[h a|h] rest IH]; simpl; congruence.
Qed.

Lemma addressTTLs_filter answers :
  addressTTLs (List.filter isA answers) = addressTTLs answers.
Proof.
  unfold addressTTLs. f_equal.
  induction answers as [|[h a|h] rest IH]; simpl; congruence.
Qed.

Lemma addresses_none answers :
  List.forallb (fun ans => negb (isA ans)) answers = true ->
  addresses answers = [] /\ addressTTLs answers = [].
Proof.
  induction answers as [|[h a|h] rest IH]; simpl; intros Hall.
  - now split.
  - discriminate.
  - now apply IH.
Qed.

Lemma fold_min_comm (a t : Z) rest :
  fold_right Z.min (Z.min a t) rest = Z.min t (fold_right Z.min a rest).
Proof.
  induction rest as [|u rest IH]; simpl; [lia|]. rewrite IH. lia.
Qed.

Lemma fold_min_pos (a : Z) rest :
  0 < a -> Forall (fun t => 0 < t) rest -> 0 < fold_right Z.min a rest.
Proof.
  intros Ha Hall. induction Hall; simpl; lia.
Qed.

Lemma stepTTL_min acc ttls :
  0 < acc -> Forall (fun t => 0 < t) ttls ->
  fold_left stepTTL ttls acc = fold_right Z.min acc ttls.
Proof.
  intros Hacc Hall. revert acc Hacc.
  induction Hall as [|t rest Ht Hall IH]; intros acc Hacc; simpl.
  - reflexivity.
  - assert (Hstep : stepTTL acc t = Z.min acc t).
    { unfold stepTTL. destruct (Z.eqb_spec acc 0); [lia|]. simpl.
      destruct (Z.ltb_spec t acc); lia. }
    rewrite Hstep, IH by lia. apply fold_min_comm.
Qed.

(** As long as no A record has TTL 0, the loop leaves the least TTL of the
    A records in [shortestTTL]. *)
Lemma scanAnswers_min_positive answers :
  Forall (fun t => 0 < t) (addressTTLs answers) ->
  snd (scanAnswers answers) = minTTL (addressTTLs answers).
Proof.
  intros Hall. rewrite scanAnswers_eq. simpl.
  destruct (addressTTLs answers) as [|t rest]; [reflexivity|].
  inversion Hall; subst. simpl.
  change (stepTTL 0 t) with t.
  now apply stepTTL_min.
Qed.

Lemma wrap_i64_small z : - 2 ^ 63 <= z < 2 ^ 63 -> wrap_i64 z = z.
Proof.
  intros Hz. unfold wrap_i64. rewrite Z.mod_small; lia.
Qed.

(** A TTL of 32 bits, counted in seconds, fits a [time.Duration]. *)
Lemma Duration_mul_Second ttl :
  validTTL ttl -> Duration_mul Second ttl = ttl * 1000000000.
Proof.
  unfold validTTL, maxUint32, Duration_mul, Second. intros Httl.
  rewrite wrap_i64_small; lia.
Qed.

(** ** Endpoints.Random *)

Section RandomFacts.

Context {Rand : Type}.
Variable draw : Z -> Rand -> Z * Rand.

(** The contract of [rand.Intn]: a result in the half-open interval
    from 0 to n. *)
Hypothesis draw_range : forall n g, 0 < n -> 0 <= fst (draw n g) < n.

(** C9. On a non-empty list [Random] returns one of its elements; on the
    empty list it does not return (it panics): there is no check of the
    length, [rand.Intn] refuses the bound 0, and no index into the empty
    list succeeds. *)
Theorem C9_Random_member (e : Endpoints) (g : Rand) :
  (e <> [] -> exists x, fst (Random draw e g) = Some x /\ In x e) /\
  fst (Random draw [] g) = None /\
  (forall i, index [] i = None).
Proof.
  split; [|split; [reflexivity|]]; cycle 1.
  { intros i. unfold index. simpl. now destruct (_ && _). }
  intros Hne. unfold Random, rand_Intn.
  assert (Hlen : 0 < Z.of_nat (length e)) by (destruct e; simpl; [congruence|lia]).
  destruct (Z.leb_spec (Z.of_nat (length e)) 0) as [Hle|_]; [lia|].
  pose proof (draw_range _ g Hlen) as Hk.
  destruct (draw (Z.of_nat (length e)) g) as [k g']. simpl in *.
  unfold index.
  destruct (Z.leb_spec 0 k); [|lia].
  destruct (Z.ltb_spec k (Z.of_nat (length e))); [|lia]. simpl.
  destruct (e !! Z.to_nat k) as [x|] eqn:Hx.
  - exists x. split; [reflexivity|].
    apply list_elem_of_In, list_elem_of_lookup. eauto.
  - apply lookup_ge_None in Hx. lia.
Qed.

End RandomFacts.

(** ** NewSimpleDNSClient *)

Lemma defaultDNSClientTimeout_10s : defaultDNSClientTimeout = 10 * Second.
Proof. reflexivity. Qed.

(** C8. An empty server list is refused with an error; a non-empty one
    gives a client over these servers with an empty cache, whose timeout is
    10 seconds when no options or a zero timeout were given (and the given
    timeout otherwise). *)
Theorem C8_NewSimpleDNSClient {World : Type} (srvs : Endpoints)
  (o : option DNSClientOptions) (s : Sys World) :
  (srvs = [] ->
     NewSimpleDNSClient srvs o s =
       ((None, Some (Errorf "at least one endpoint server is required")), s)) /\
  (srvs <> [] ->
     exists c s',
       NewSimpleDNSClient srvs o s = ((Some c, None), s') /\
       servers c = srvs /\
       sys_records s' = ∅ /\
       (o = None \/ (exists given, o = Some given /\ Timeout given = 0) ->
          Timeout (opts c) = 10 * Second /\
          Timeout (opts c) = 10000000000) /\
       (forall given, o = Some given -> Timeout given <> 0 -> opts c = given)).
Proof.
  split.
  - intros ->. reflexivity.
  - intros Hne. destruct srvs as [|srv rest]; [congruence|].
    unfold NewSimpleDNSClient. simpl.
    eexists _, _. split; [reflexivity|]. simpl.
    split; [reflexivity|]. split; [reflexivity|]. split.
    + intros [-> | (given & -> & Hz)]; simpl; [now split|].
      rewrite Hz. simpl. now split.
    + intros given -> Hnz. simpl.
      destruct (Z.eqb_spec (Timeout given) 0); [contradiction|reflexivity].
Qed.


(** A client that [NewSimpleDNSClient] has built has a server to ask. *)
Lemma NewSimpleDNSClient_servers {World : Type} (srvs : Endpoints)
  (o : option DNSClientOptions) (s s' : Sys World) c :
  NewSimpleDNSClient srvs o s = ((Some c, None), s') -> servers c <> [].
Proof.
  destruct srvs as [|srv rest]; [discriminate|].
  unfold NewSimpleDNSClient. simpl. intros [= <- _]. discriminate.
Qed.

(** ** LookupIP *)

Section ClientFacts.

Context {World : Type} `{Platform World}.

Implicit Types (s : Sys World) (c : SimpleDNSClient) (host : string).

Ltac run := unfold mbind, M_bind, mret, M_ret; simpl.

(** *** The cache check *)

Lemma cacheLookup_absent host s :
  sys_records s !! host = None ->
  cacheLookup host s = ((zeroRecord, false), s).
Proof.
  intros Hnone. unfold cacheLookup, cache_Get, records_Get. run.
  now rewrite Hnone.
Qed.

Lemma cacheLookup_present host s rec t w :
  sys_records s !! host = Some rec ->
  time_Now (sys_world s) = (t, w) ->
  cacheLookup host s =
    ((rec, Time_After (expires rec) t),
     mkSys w (sys_records s) (sys_log s)).
Proof.
  intros Hsome Hnow. unfold cacheLookup, cache_Get, records_Get, Now. run.
  now rewrite Hsome, Hnow.
Qed.

Lemma cacheLookup_frame host s res s0 :
  cacheLookup host s = (res, s0) ->
  sys_records s0 = sys_records s /\ sys_log s0 = sys_log s.
Proof.
  destruct (sys_records s !! host) as [rec|] eqn:Hrec.
  - destruct (time_Now (sys_world s)) as [t w] eqn:Hnow.
    rewrite (cacheLookup_present _ _ _ _ _ Hrec Hnow).
    intros [= <- <-]. now split.
  - rewrite (cacheLookup_absent _ _ Hrec). intros [= <- <-]. now split.
Qed.

Lemma cacheLookup_good host s entry s0 :
  cacheLookup host s = ((entry, true), s0) ->
  sys_records s !! host = Some entry.
Proof.
  destruct (sys_records s !! host) as [rec|] eqn:Hrec.
  - destruct (time_Now (sys_world s)) as [t w] eqn:Hnow.
    rewrite (cacheLookup_present _ _ _ _ _ Hrec Hnow). now intros [= <- _ _].
  - rewrite (cacheLookup_absent _ _ Hrec). discriminate.
Qed.

Lemma LookupIP_hit c host s entry s0 :
  cacheLookup host s = ((entry, true), s0) ->
  LookupIP c host s = (Returned (ips entry) None, s0).
Proof. intros Hc. unfold LookupIP. run. now rewrite Hc. Qed.

Lemma LookupIP_miss c host s entry s0 :
  cacheLookup host s = ((entry, false), s0) ->
  LookupIP c host s = lookupServers (Timeout (opts c)) host (servers c) s0.
Proof. intros Hc. unfold LookupIP. run. now rewrite Hc. Qed.

(** *** One turn of the loop over the servers *)

Lemma lookupServers_timeout d host srv rest s res w :
  exchange d (SetQuestion (Fqdn host) TypeA) (Endpoint_String srv)
           (sys_world s) = (res, w) ->
  isTimeout (snd res) = true ->
  lookupServers d host (srv :: rest) s =
    lookupServers d host rest
      (mkSys w (sys_records s) (sys_log s ++ [attempt d host srv])).
Proof.
  intros Hex Hto. simpl. unfold callExchange. run.
  rewrite Hex. destruct res as [r err]. simpl in Hto. now rewrite Hto.
Qed.

Lemma lookupServers_error d host srv rest s r e w :
  exchange d (SetQuestion (Fqdn host) TypeA) (Endpoint_String srv)
           (sys_world s) = ((r, Some e), w) ->
  isTimeout (Some e) = false ->
  lookupServers d host (srv :: rest) s =
    (Returned [] (Some e),
     mkSys w (sys_records s) (sys_log s ++ [attempt d host srv])).
Proof.
  intros Hex Hto. simpl. unfold callExchange. run.
  rewrite Hex, Hto. reflexivity.
Qed.

Lemma lookupServers_nil_response d host srv rest s w :
  exchange d (SetQuestion (Fqdn host) TypeA) (Endpoint_String srv)
           (sys_world s) = ((None, None), w) ->
  lookupServers d host (srv :: rest) s =
    (Panicked, mkSys w (sys_records s) (sys_log s ++ [attempt d host srv])).
Proof.
  intros Hex. simpl. unfold callExchange. run. now rewrite Hex.
Qed.

Lemma lookupServers_answer d host srv rest s r w t w' :
  exchange d (SetQuestion (Fqdn host) TypeA) (Endpoint_String srv)
           (sys_world s) = ((Some r, None), w) ->
  time_Now w = (t, w') ->
  lookupServers d host (srv :: rest) s =
    (Returned (addresses (Answer r)) None,
     mkSys w'
       (<[host := mkRecord (Some r) (addresses (Answer r))
                    (t + Duration_mul Second
                           (fold_left stepTTL (addressTTLs (Answer r)) 0))]>
          (sys_records s))
       (sys_log s ++ [attempt d host srv])).
Proof.
  intros Hex Hnow. simpl. unfold callExchange. run.
  rewrite Hex. simpl. rewrite scanAnswers_eq.
  unfold Now, cache_Set, records_Set, Time_Add. run. now rewrite Hnow.
Qed.

(** *** The loop as a whole *)

Lemma lookupServers_skip d host pre rest s w :
  timeOuts d host pre (sys_world s) = Some w ->
  lookupServers d host (pre ++ rest) s =
    lookupServers d host rest
      (mkSys w (sys_records s) (sys_log s ++ map (attempt d host) pre)).
Proof.
  revert s. induction pre as [|srv pre IH]; intros s Hto.
  - simpl in *. injection Hto as <-. rewrite app_nil_r. now destruct s.
  - simpl in Hto.
    destruct (exchange d (SetQuestion (Fqdn host) TypeA)
                (Endpoint_String srv) (sys_world s)) as [res w1] eqn:Hex.
    destruct (isTimeout (snd res)) eqn:Hres; [|discriminate].
    change ((srv :: pre) ++ rest) with (srv :: (pre ++ rest)).
    rewrite (lookupServers_timeout _ _ _ _ _ _ _ Hex Hres).
    rewrite IH by exact Hto. simpl. now rewrite <- app_assoc.
Qed.

Lemma lookupServers_exhausted d host s :
  lookupServers d host [] s = (Returned [] (Some ErrAllServersFailed), s).
Proof. reflexivity. Qed.

(** The exchanges of one pass are those of a prefix of the server list, in
    its order. *)
Lemma lookupServers_log d host srvs s :
  exists n,
    sys_log (snd (lookupServers d host srvs s)) =
      sys_log s ++ map (attempt d host) (take n srvs).
Proof.
  revert s. induction srvs as [|srv rest IH]; intros s.
  - exists O. simpl. now rewrite app_nil_r.
  - destruct (exchange d (SetQuestion (Fqdn host) TypeA)
                (Endpoint_String srv) (sys_world s))
      as [[r err] w] eqn:Hex.
    destruct (isTimeout err) eqn:Hto.
    + rewrite (lookupServers_timeout _ _ _ _ _ _ _ Hex Hto).
      destruct (IH (mkSys w (sys_records s)
                      (sys_log s ++ [attempt d host srv]))) as [n Hn].
      exists (S n). rewrite Hn. simpl. now rewrite <- app_assoc.
    + exists 1%nat. destruct err as [e|].
      * now rewrite (lookupServers_error _ _ _ _ _ _ _ _ Hex Hto).
      * destruct r as [r|].
        -- destruct (time_Now w) as [t w'] eqn:Hnow.
           now rewrite (lookupServers_answer _ _ _ _ _ _ _ _ _ Hex Hnow).
        -- now rewrite (lookupServers_nil_response _ _ _ _ _ _ Hex).
Qed.

(** A pass that returns without error has stored what it returns. *)
Lemma lookupServers_stored d host srvs s ips1 s1 :
  lookupServers d host srvs s = (Returned ips1 None, s1) ->
  exists rec, sys_records s1 !! host = Some rec /\ ips rec = ips1.
Proof.
  revert s. induction srvs as [|srv rest IH]; intros s.
  - discriminate.
  - destruct (exchange d (SetQuestion (Fqdn host) TypeA)
                (Endpoint_String srv) (sys_world s))
      as [[r err] w] eqn:Hex.
    destruct (isTimeout err) eqn:Hto.
    + rewrite (lookupServers_timeout _ _ _ _ _ _ _ Hex Hto). apply IH.
    + destruct err as [e|].
      * rewrite (lookupServers_error _ _ _ _ _ _ _ _ Hex Hto). discriminate.
      * destruct r as [r|].
        -- destruct (time_Now w) as [t w'] eqn:Hnow.
           rewrite (lookupServers_answer _ _ _ _ _ _ _ _ _ Hex Hnow).
           intros [= <- <-]. eexists. simpl.
           rewrite lookup_insert_eq. split; reflexivity.
        -- rewrite (lookupServers_nil_response _ _ _ _ _ _ Hex).
           discriminate.
Qed.

Lemma LookupIP_stored c host s ips1 s1 rec :
  LookupIP c host s = (Returned ips1 None, s1) ->
  sys_records s1 !! host = Some rec ->
  ips rec = ips1.
Proof.
  destruct (cacheLookup host s) as [[entry good] s0] eqn:Hc.
  destruct good.
  - rewrite (LookupIP_hit _ _ _ _ _ Hc). intros [= <- <-] Hrec.
    pose proof (cacheLookup_good _ _ _ _ Hc) as Hentry.
    destruct (cacheLookup_frame _ _ _ _ Hc) as [Hsame _].
    rewrite Hsame in Hrec. congruence.
  - rewrite (LookupIP_miss _ _ _ _ _ Hc). intros Hrun Hrec.
    destruct (lookupServers_stored _ _ _ _ _ _ Hrun) as (rec' & Hrec' & Hips).
    congruence.
Qed.

(** A miss whose first answering server answers without error: the
    addresses of the A records are returned and stored. *)
Lemma LookupIP_answer c host s entry s0 pre srv post w r w' t w'' :
  cacheLookup host s = ((entry, false), s0) ->
  servers c = pre ++ srv :: post ->
  timeOuts (Timeout (opts c)) host pre (sys_world s0) = Some w ->
  exchange (Timeout (opts c)) (SetQuestion (Fqdn host) TypeA)
           (Endpoint_String srv) w = ((Some r, None), w') ->
  time_Now w' = (t, w'') ->
  LookupIP c host s =
    (Returned (addresses (Answer r)) None,
     mkSys w''
       (<[host := mkRecord (Some r) (addresses (Answer r))
                    (t + Duration_mul Second
                           (fold_left stepTTL (addressTTLs (Answer r)) 0))]>
          (sys_records s))
       (sys_log s ++ map (attempt (Timeout (opts c)) host) (pre ++ [srv]))).
Proof.
  intros Hc Hsrv Hto Hex Hnow.
  destruct (cacheLookup_frame _ _ _ _ Hc) as [Hrec Hlog].
  rewrite (LookupIP_miss _ _ _ _ _ Hc), Hsrv.
  rewrite (lookupServers_skip _ _ _ _ _ _ Hto).
  rewrite (lookupServers_answer _ host srv post
             (mkSys w (sys_records s0)
                (sys_log s0 ++ map (attempt (Timeout (opts c)) host) pre))
             _ _ _ _ Hex Hnow).
  simpl. rewrite Hrec, Hlog, map_app, <- app_assoc. reflexivity.
Qed.

(** *** Fail-over and its ends *)

(** C2. On a cache miss the exchanges performed are those of a prefix of
    the configured servers, in configured order; servers that time out are
    passed over and the loop goes on with the next one; a non-nil error
    that is no timeout is returned at once, with nil addresses, the cache
    as it was and no later server contacted. *)
Theorem C2_failover_and_fail_fast c host s entry s0 :
  cacheLookup host s = ((entry, false), s0) ->
  (exists n,
     sys_log (snd (LookupIP c host s)) =
       sys_log s ++ map (attempt (Timeout (opts c)) host) (take n (servers c))) /\
  (forall pre rest w,
     servers c = pre ++ rest ->
     timeOuts (Timeout (opts c)) host pre (sys_world s0) = Some w ->
     LookupIP c host s =
       lookupServers (Timeout (opts c)) host rest
         (mkSys w (sys_records s)
            (sys_log s ++ map (attempt (Timeout (opts c)) host) pre))) /\
  (forall pre srv post w r e w',
     servers c = pre ++ srv :: post ->
     timeOuts (Timeout (opts c)) host pre (sys_world s0) = Some w ->
     exchange (Timeout (opts c)) (SetQuestion (Fqdn host) TypeA)
              (Endpoint_String srv) w = ((r, Some e), w') ->
     isTimeout (Some e) = false ->
     LookupIP c host s =
       (Returned [] (Some e),
        mkSys w' (sys_records s)
          (sys_log s ++
             map (attempt (Timeout (opts c)) host) (pre ++ [srv])))).
Proof.
  intros Hc.
  destruct (cacheLookup_frame _ _ _ _ Hc) as [Hrec Hlog].
  rewrite (LookupIP_miss _ _ _ _ _ Hc).
  assert (Hskip : forall pre rest w,
    servers c = pre ++ rest ->
    timeOuts (Timeout (opts c)) host pre (sys_world s0) = Some w ->
    lookupServers (Timeout (opts c)) host (servers c) s0 =
      lookupServers (Timeout (opts c)) host rest
        (mkSys w (sys_records s)
           (sys_log s ++ map (attempt (Timeout (opts c)) host) pre))).
  { intros pre rest w Hsrv Hto.
    rewrite Hsrv, (lookupServers_skip _ _ _ _ _ _ Hto).
    now rewrite Hrec, Hlog. }
  split; [|split].
  - destruct (lookupServers_log (Timeout (opts c)) host (servers c) s0)
      as [n Hn].
    exists n. now rewrite Hn, Hlog.
  - exact Hskip.
  - intros pre srv post w r e w' Hsrv Hto Hex Herr.
    rewrite (Hskip _ _ _ Hsrv Hto).
    rewrite (lookupServers_error _ host srv post
               (mkSys w (sys_records s)
                  (sys_log s ++ map (attempt (Timeout (opts c)) host) pre))
               _ _ _ Hex Herr).
    simpl. now rewrite map_app, <- app_assoc.
Qed.

(** C4. On a cache miss, if every configured server times out, [LookupIP]
    returns [ErrAllServersFailed] and nil addresses, after one exchange
    with each server and with the cache as it was. *)
Theorem C4_all_servers_time_out c host s entry s0 w :
  cacheLookup host s = ((entry, false), s0) ->
  timeOuts (Timeout (opts c)) host (servers c) (sys_world s0) = Some w ->
  LookupIP c host s =
    (Returned [] (Some ErrAllServersFailed),
     mkSys w (sys_records s)
       (sys_log s ++ map (attempt (Timeout (opts c)) host) (servers c))).
Proof.
  intros Hc Hto.
  destruct (cacheLookup_frame _ _ _ _ Hc) as [Hrec Hlog].
  rewrite (LookupIP_miss _ _ _ _ _ Hc).
  rewrite <- (app_nil_r (servers c)) at 1.
  rewrite (lookupServers_skip _ _ _ _ _ _ Hto), lookupServers_exhausted.
  now rewrite Hrec, Hlog.
Qed.

(** *** The cache *)

(** C5. A stored record is returned exactly while the clock reads a time
    strictly before its expiry, and then without any exchange; from the
    expiry on the call runs the loop over the servers instead, and with a
    non-empty server list its first act is an exchange with the first
    server. *)
Theorem C5_hit_only_before_expiry c host s rec t w :
  sys_records s !! host = Some rec ->
  time_Now (sys_world s) = (t, w) ->
  (t < expires rec ->
     LookupIP c host s =
       (Returned (ips rec) None, mkSys w (sys_records s) (sys_log s))) /\
  (expires rec <= t ->
     LookupIP c host s =
       lookupServers (Timeout (opts c)) host (servers c)
         (mkSys w (sys_records s) (sys_log s)) /\
     (servers c <> [] ->
      exists srv rest more,
        servers c = srv :: rest /\
        sys_log (snd (LookupIP c host s)) =
          sys_log s ++ attempt (Timeout (opts c)) host srv :: more)).
Proof.
  intros Hrec Hnow.
  pose proof (cacheLookup_present _ _ _ _ _ Hrec Hnow) as Hc.
  unfold Time_After in Hc.
  split; intros Ht.
  - destruct (Z.ltb_spec t (expires rec)); [|lia].
    now rewrite (LookupIP_hit _ _ _ _ _ Hc).
  - destruct (Z.ltb_spec t (expires rec)); [lia|].
    rewrite (LookupIP_miss _ _ _ _ _ Hc). split; [reflexivity|].
    intros Hne. destruct (servers c) as [|srv rest]; [congruence|].
    exists srv, rest.
    destruct (exchange (Timeout (opts c)) (SetQuestion (Fqdn host) TypeA)
                (Endpoint_String srv) w) as [[r err] w1] eqn:Hex.
    set (s0 := mkSys w (sys_records s) (sys_log s)).
    destruct (isTimeout err) eqn:Hto.
    + rewrite (lookupServers_timeout _ host srv rest s0 _ _ Hex Hto).
      destruct (lookupServers_log (Timeout (opts c)) host rest
                  (mkSys w1 (sys_records s0)
                     (sys_log s0 ++ [attempt (Timeout (opts c)) host srv])))
        as [n Hn].
      eexists. split; [reflexivity|]. rewrite Hn. simpl.
      now rewrite <- app_assoc.
    + exists []. split; [reflexivity|]. destruct err as [e|].
      * now rewrite (lookupServers_error _ host srv rest s0 _ _ _ Hex Hto).
      * destruct r as [r|].
        -- destruct (time_Now w1) as [t1 w2] eqn:Hnow1.
           now rewrite (lookupServers_answer _ host srv rest s0 _ _ _ _
                          Hex Hnow1).
        -- now rewrite (lookupServers_nil_response _ host srv rest s0 _ Hex).
Qed.

(** C6. After a call that returned addresses without error and left a
    record for the host in the cache, a call made while that record is
    still in the cache and the clock reads a time before its expiry
    returns the same addresses and performs no exchange. *)
Theorem C6_cache_idempotence c host s ips1 s1 rec s2 t w :
  LookupIP c host s = (Returned ips1 None, s1) ->
  sys_records s1 !! host = Some rec ->
  sys_records s2 !! host = Some rec ->
  time_Now (sys_world s2) = (t, w) ->
  t < expires rec ->
  LookupIP c host s2 =
    (Returned ips1 None, mkSys w (sys_records s2) (sys_log s2)).
Proof.
  intros Hfirst Hstored Hstill Hnow Ht.
  rewrite <- (LookupIP_stored _ _ _ _ _ _ Hfirst Hstored).
  pose proof (cacheLookup_present _ _ _ _ _ Hstill Hnow) as Hc.
  unfold Time_After in Hc.
  destruct (Z.ltb_spec t (expires rec)); [|lia].
  now rewrite (LookupIP_hit _ _ _ _ _ Hc).
Qed.

(** *** What is taken from a response *)

(** C7. When the first answering server answers without error, the call
    returns, with a nil error, the addresses of the A records of the answer
    section in their order; the records of other types change neither the
    addresses nor the TTL the loop computes, so the stored record is the
    one the A records alone would give. *)
Theorem C7_only_A_records_collected
  c host s entry s0 pre srv post w r w' t w'' :
  cacheLookup host s = ((entry, false), s0) ->
  servers c = pre ++ srv :: post ->
  timeOuts (Timeout (opts c)) host pre (sys_world s0) = Some w ->
  exchange (Timeout (opts c)) (SetQuestion (Fqdn host) TypeA)
           (Endpoint_String srv) w = ((Some r, None), w') ->
  time_Now w' = (t, w'') ->
  fst (LookupIP c host s) = Returned (addresses (Answer r)) None /\
  addresses (Answer r) = addresses (List.filter isA (Answer r)) /\
  length (addresses (Answer r)) = length (List.filter isA (Answer r)) /\
  scanAnswers (Answer r) = scanAnswers (List.filter isA (Answer r)) /\
  sys_records (snd (LookupIP c host s)) !! host =
    Some (mkRecord (Some r) (addresses (List.filter isA (Answer r)))
            (t + Duration_mul Second
                   (snd (scanAnswers (List.filter isA (Answer r)))))).
Proof.
  intros Hc Hsrv Hto Hex Hnow.
  rewrite (LookupIP_answer _ _ _ _ _ _ _ _ _ _ _ _ _ Hc Hsrv Hto Hex Hnow).
  simpl. rewrite lookup_insert_eq, !scanAnswers_eq.
  rewrite addresses_filter, addressTTLs_filter. simpl.
  repeat split; try reflexivity.
  induction (Answer r) as [|[h a|h] rest IH]; simpl; congruence.
Qed.

(** C10. When the first answering server answers without error and its
    answer section holds no A record, the call returns nil addresses and a
    nil error and stores a record that expires at the time read after the
    exchange; a later call that finds this record, the clock not having
    gone back, does not take it for a hit and runs the loop over the
    servers. *)
Theorem C10_no_address_records
  c host s entry s0 pre srv post w r w' t w'' :
  cacheLookup host s = ((entry, false), s0) ->
  servers c = pre ++ srv :: post ->
  timeOuts (Timeout (opts c)) host pre (sys_world s0) = Some w ->
  exchange (Timeout (opts c)) (SetQuestion (Fqdn host) TypeA)
           (Endpoint_String srv) w = ((Some r, None), w') ->
  time_Now w' = (t, w'') ->
  List.forallb (fun ans => negb (isA ans)) (Answer r) = true ->
  LookupIP c host s =
    (Returned [] None,
     mkSys w'' (<[host := mkRecord (Some r) [] t]> (sys_records s))
       (sys_log s ++
          map (attempt (Timeout (opts c)) host) (pre ++ [srv]))) /\
  (forall c2 s2 t2 w2,
     sys_records s2 !! host = Some (mkRecord (Some r) [] t) ->
     time_Now (sys_world s2) = (t2, w2) ->
     t <= t2 ->
     cacheLookup host s2 =
       ((mkRecord (Some r) [] t, false),
        mkSys w2 (sys_records s2) (sys_log s2)) /\
     LookupIP c2 host s2 =
       lookupServers (Timeout (opts c2)) host (servers c2)
         (mkSys w2 (sys_records s2) (sys_log s2))).
Proof.
  intros Hc Hsrv Hto Hex Hnow Hnone.
  destruct (addresses_none _ Hnone) as [Haddr Httl].
  split.
  - rewrite (LookupIP_answer _ _ _ _ _ _ _ _ _ _ _ _ _ Hc Hsrv Hto Hex Hnow).
    rewrite Haddr, Httl. simpl.
    change (Duration_mul Second 0) with 0. now rewrite Z.add_0_r.
  - intros c2 s2 t2 w2 Hrec Hnow2 Hlater.
    pose proof (cacheLookup_present _ _ _ _ _ Hrec Hnow2) as Hc2.
    unfold Time_After in Hc2. simpl in Hc2.
    destruct (Z.ltb_spec t2 t); [lia|].
    split; [exact Hc2|].
    now rewrite (LookupIP_miss _ _ _ _ _ Hc2).
Qed.

(** *** The expiry *)

Lemma minTTL_valid ttls : Forall validTTL ttls -> validTTL (minTTL ttls).
Proof.
  unfold validTTL, maxUint32. destruct 1 as [|t rest Ht Hrest]; simpl; [lia|].
  induction Hrest; simpl; lia.
Qed.

(** When no A record of the response has TTL 0, the stored record expires
    the least TTL of the A records, in seconds, after the time read when
    the response has come. *)
Lemma LookupIP_expiry_min_positive
  c host s entry s0 pre srv post w r w' t w'' :
  cacheLookup host s = ((entry, false), s0) ->
  servers c = pre ++ srv :: post ->
  timeOuts (Timeout (opts c)) host pre (sys_world s0) = Some w ->
  exchange (Timeout (opts c)) (SetQuestion (Fqdn host) TypeA)
           (Endpoint_String srv) w = ((Some r, None), w') ->
  time_Now w' = (t, w'') ->
  Forall validTTL (addressTTLs (Answer r)) ->
  Forall (fun ttl => 0 < ttl) (addressTTLs (Answer r)) ->
  expires <$> sys_records (snd (LookupIP c host s)) !! host =
    Some (t + minTTL (addressTTLs (Answer r)) * 1000000000).
Proof.
  intros Hc Hsrv Hto Hex Hnow Hvalid Hpos.
  rewrite (LookupIP_answer _ _ _ _ _ _ _ _ _ _ _ _ _ Hc Hsrv Hto Hex Hnow).
  simpl. rewrite lookup_insert_eq. simpl.
  pose proof (scanAnswers_min_positive _ Hpos) as Hmin.
  rewrite scanAnswers_eq in Hmin. simpl in Hmin. rewrite Hmin.
  now rewrite (Duration_mul_Second _ (minTTL_valid _ Hvalid)).
Qed.

End ClientFacts.

(** * The properties at concrete inputs *)

Import Demo.

(** ** The shortest TTL *)

(** TTLs 30, 10, 50: the record expires 10 seconds after the response. *)
Example ttl_30_10_50 :
  let answers := [rrA 30 ip1; rrA 10 ip2; rrA 50 ip3] in
  let run := LookupIP client host (start [(7, reply answers)]) in
  fst run = Returned [ip1; ip2; ip3] None /\
  expires <$> sys_records (snd run) !! host = Some (7 + 10 * Second).
Proof. vm_compute. split; reflexivity. Qed.

(** A TTL of 0 that comes last is kept. *)
Example ttl_30_50_0 :
  snd (scanAnswers [rrA 30 ip1; rrA 50 ip2; rrA 0 ip3]) = 0.
Proof. reflexivity. Qed.

(** C1. The claim fails on the code: [shortestTTL == 0] stands for "no
    record seen yet", so an A record of TTL 0 makes the next A record
    start the minimum afresh. For A records of TTLs 0 and 30 the least TTL
    is 0, yet the loop ends with 30 and the stored record expires 30
    seconds after the response; for TTLs 30, 0, 50 it ends with 50. *)
Theorem C1_zero_ttl_resets_minimum :
  let answers := [rrA 0 ip1; rrA 30 ip2] in
  let run := LookupIP client host (start [(7, reply answers)]) in
  minTTL (addressTTLs answers) = 0 /\
  snd (scanAnswers answers) = 30 /\
  fst run = Returned [ip1; ip2] None /\
  expires <$> sys_records (snd run) !! host = Some (7 + 30 * Second) /\
  snd (scanAnswers [rrA 30 ip1; rrA 0 ip2; rrA 50 ip3]) = 50.
Proof. vm_compute. repeat split; reflexivity. Qed.

(** ** Witnesses *)

Lemma C3_ParseEndpoint_cases_witness :
  ParseEndpoint parseIPv4 "10.0.0.1:53" 80 = (mkEndpoint ip1 53, None) /\
  ParseEndpoint parseIPv4 "10.0.0.1" 80 = (mkEndpoint ip1 80, None) /\
  ParseEndpoint parseIPv4 "10.0.0.1:http" 80 =
    (mkEndpoint ip1 80, Some ErrFailedParsingPort) /\
  snd (ParseEndpoint parseIPv4 "localhost:53" 80) = Some ErrFailedParsingIP /\
  ParseEndpoint parseIPv4 "::1" 80 =
    (zeroEndpoint, Some ErrInvalidEndpointString).
Proof.
  pose proof (C3_ParseEndpoint_cases parseIPv4 "10.0.0.1" "53" 80
                eq_refl eq_refl) as (Hmany & _ & _ & Hboth & Hdefault & _).
  pose proof (C3_ParseEndpoint_cases parseIPv4 "10.0.0.1" "http" 80
                eq_refl eq_refl) as (_ & _ & Hport & _).
  pose proof (C3_ParseEndpoint_cases parseIPv4 "localhost" "53" 80
                eq_refl eq_refl) as (_ & Hhost & _).
  split; [exact (proj2 (Hboth ip1 53 eq_refl eq_refl))|].
  split; [exact (Hdefault ip1 eq_refl)|].
  split; [vm_compute; reflexivity|].
  split; [exact (proj2 (Hhost eq_refl))|].
  apply Hmany. vm_compute. lia.
Defined.

Lemma draw_in_range n (g : Z) : 0 < n -> 0 <= fst (draw n g) < n.
Proof. intros Hn. simpl. now apply Z.mod_pos_bound. Qed.

Lemma C9_Random_member_witness :
  exists x,
    fst (Random draw [srv1; srv2; srv3] 7) = Some x /\
    In x [srv1; srv2; srv3].
Proof.
  apply (proj1 (C9_Random_member draw draw_in_range [srv1; srv2; srv3] 7)).
  discriminate.
Defined.

Lemma C8_NewSimpleDNSClient_witness :
  exists c s',
    NewSimpleDNSClient [srv1; srv2] None (start []) = ((Some c, None), s') /\
    servers c = [srv1; srv2] /\
    Timeout (opts c) = 10 * Second.
Proof.
  destruct (proj2 (C8_NewSimpleDNSClient [srv1; srv2] None (start []))
              ltac:(discriminate))
    as (c & s' & Hnew & Hsrv & _ & Hdefault & _).
  exists c, s'. split; [exact Hnew|]. split; [exact Hsrv|].
  exact (proj1 (Hdefault (or_introl eq_refl))).
Defined.

Lemma C2_failover_and_fail_fast_witness :
  LookupIP client host (start [(5, timedOut); (7, refused)]) =
    (Returned [] (Some (PlainError "connection refused")),
     mkSys (12, []) ∅
       [attempt defaultDNSClientTimeout host srv1;
        attempt defaultDNSClientTimeout host srv2]).
Proof.
  exact (proj2 (proj2 (C2_failover_and_fail_fast client host
                         (start [(5, timedOut); (7, refused)])
                         zeroRecord _ eq_refl))
           [srv1] srv2 [srv3] (5, [(7, refused)]) None
           (PlainError "connection refused") (12, [])
           eq_refl eq_refl eq_refl eq_refl).
Defined.

Lemma C4_all_servers_time_out_witness :
  fst (LookupIP client host (start [(5, timedOut)])) =
    Returned [] (Some ErrAllServersFailed).
Proof.
  assert (Hto : timeOuts (Timeout (opts client)) host (servers client)
                  (sys_world (start [(5, timedOut)])) =
                Some (20000000005, [])) by (vm_compute; reflexivity).
  rewrite (C4_all_servers_time_out client host (start [(5, timedOut)])
             zeroRecord _ _ eq_refl Hto).
  reflexivity.
Defined.

Lemma C5_hit_only_before_expiry_witness :
  LookupIP client host (cached freshRecord) =
    (Returned [ip1] None, cached freshRecord) /\
  exists more,
    sys_log (snd (LookupIP client host (cached staleRecord))) =
      attempt defaultDNSClientTimeout host srv1 :: more.
Proof.
  split.
  - apply (proj1 (@C5_hit_only_before_expiry World platform client host (cached freshRecord)
                    freshRecord 100 (sys_world (cached freshRecord))
                    (lookup_singleton_eq host freshRecord) eq_refl)).
    simpl. lia.
  - destruct (proj2 (@C5_hit_only_before_expiry World platform client host
                      (cached staleRecord) staleRecord 100
                      (sys_world (cached staleRecord))
                      (lookup_singleton_eq host staleRecord) eq_refl))
      as [_ Hex]; [simpl; lia|].
    destruct (Hex ltac:(discriminate)) as (srv & rest & more & Hsrv & Hlog).
    exists more. injection Hsrv as <- _. exact Hlog.
Defined.

Lemma C6_cache_idempotence_witness :
  LookupIP client host
    (snd (LookupIP client host (start [(7, (Some twoAddresses, None))]))) =
    (Returned [ip1; ip2] None,
     snd (LookupIP client host (start [(7, (Some twoAddresses, None))]))).
Proof.
  set (s := start [(7, (Some twoAddresses, None))]).
  set (s1 := snd (LookupIP client host s)).
  assert (Hfirst : LookupIP client host s = (Returned [ip1; ip2] None, s1))
    by (vm_compute; reflexivity).
  assert (Hrec : sys_records s1 !! host =
                 Some (mkRecord (Some twoAddresses) [ip1; ip2] 10000000007))
    by (vm_compute; reflexivity).
  assert (Hnow : time_Now (sys_world s1) = (7, (7, [])))
    by (vm_compute; reflexivity).
  rewrite (@C6_cache_idempotence World platform client host s [ip1; ip2] s1 _ s1 7 (7, [])
             Hfirst Hrec Hrec Hnow ltac:(simpl; lia)).
  vm_compute. reflexivity.
Defined.

Lemma C7_only_A_records_collected_witness :
  fst (LookupIP client host
         (start [(5, timedOut);
                 (7, reply [rrA 30 ip1; rrCNAME 5; rrA 10 ip2])])) =
    Returned [ip1; ip2] None.
Proof.
  apply (@C7_only_A_records_collected World platform client host
           (start [(5, timedOut);
                   (7, reply [rrA 30 ip1; rrCNAME 5; rrA 10 ip2])])
           zeroRecord _ [srv1] srv2 [srv3]
           (5, [(7, reply [rrA 30 ip1; rrCNAME 5; rrA 10 ip2])])
           (mkMsg [mkQuestion "example.org." TypeA]
              [rrA 30 ip1; rrCNAME 5; rrA 10 ip2])
           (12, []) 12 (12, [])
           eq_refl eq_refl eq_refl eq_refl eq_refl).
Defined.

Lemma C10_no_address_records_witness :
  LookupIP client host (start [(7, (Some noAddress, None))]) =
    (Returned [] None,
     mkSys (7, []) (<[ host := mkRecord (Some noAddress) [] 7 ]> ∅)
       [attempt defaultDNSClientTimeout host srv1]).
Proof.
  apply (proj1 (@C10_no_address_records World platform client host
                  (start [(7, (Some noAddress, None))]) zeroRecord _
                  [] srv1 [srv2; srv3] (0, [(7, (Some noAddress, None))])
                  noAddress (7, []) 7 (7, [])
                  eq_refl eq_refl eq_refl eq_refl eq_refl eq_refl)).
Defined.


(** * Further properties *)

(** ** Printing and parsing a port *)

Lemma of_uint_acc_value d acc :
  Z.pos (Pos.of_uint_acc d acc) = uintValue d (Z.pos acc).
Proof.
  revert acc. induction d; intros acc; simpl; [reflexivity|..];
    rewrite IHd; f_equal; lia.
Qed.

Lemma of_uint_value d : Z.of_N (Pos.of_uint d) = uintValue d 0.
Proof.
  induction d; simpl; [reflexivity|exact IHd|..]; apply of_uint_acc_value.
Qed.

Lemma uintValue_mono d acc : 0 <= acc -> acc <= uintValue d acc.
Proof.
  revert acc. induction d; intros acc Hacc; simpl; [lia|..];
    (etransitivity; [|apply IHd]; lia).
Qed.

Lemma parseDigits_step maxVal c rest n k :
  digitVal c = Some k -> n * 10 + k <= maxVal ->
  parseDigits maxVal (String c rest) n = parseDigits maxVal rest (n * 10 + k).
Proof.
  intros Hc Hle. cbn [parseDigits]. rewrite Hc.
  destruct (Z.ltb_spec maxVal (n * 10 + k)); [lia|reflexivity].
Qed.

Lemma parseDigits_uint maxVal d acc :
  0 <= acc -> uintValue d acc <= maxVal ->
  parseDigits maxVal (NilEmpty.string_of_uint d) acc = Some (uintValue d acc).
Proof.
  revert acc.
  induction d; intros acc Hacc Hmax;
    cbn [NilEmpty.string_of_uint uintValue] in *; [reflexivity|..];
    match type of Hmax with
    | uintValue _ (_ * 10 + ?k) <= _ =>
        pose proof (uintValue_mono d (acc * 10 + k) ltac:(lia)) as Hm;
        rewrite (parseDigits_step maxVal _ _ acc k)
          by (reflexivity || lia);
        apply IHd; [lia|exact Hmax]
    end.
Qed.

(** What [formatUint] prints, [ParseUint10] reads back. *)
Lemma ParseUint10_formatUint bits n :
  0 <= n < 2 ^ bits -> ParseUint10 bits (formatUint n) = Some n.
Proof.
  intros Hn. unfold formatUint.
  assert (Hval : uintValue (N.to_uint (Z.to_N n)) 0 = n).
  { rewrite <- of_uint_value.
    change (Pos.of_uint (N.to_uint (Z.to_N n)))
      with (N.of_uint (N.to_uint (Z.to_N n))).
    rewrite DecimalN.Unsigned.of_to. lia. }
  destruct (N.to_uint (Z.to_N n)) as [|d|d|d|d|d|d|d|d|d|d] eqn:Hd;
    [simpl in Hval; subst n; vm_compute in Hd; discriminate|..];
    unfold NilZero.string_of_uint, ParseUint10;
    match goal with
    | |- context [NilEmpty.string_of_uint ?u] =>
        pose proof (parseDigits_uint (2 ^ bits - 1) u 0) as Hp;
        rewrite Hval in Hp; simpl NilEmpty.string_of_uint in *;
        apply Hp; lia
    end.
Qed.

Lemma count_string_of_uint d : count ":" (NilEmpty.string_of_uint d) = O.
Proof. induction d; simpl; [reflexivity|..]; exact IHd. Qed.

Lemma count_formatUint n : count ":" (formatUint n) = O.
Proof.
  unfold formatUint, NilZero.string_of_uint.
  destruct (N.to_uint (Z.to_N n)); try reflexivity;
    match goal with
    | |- count _ (NilEmpty.string_of_uint ?u) = _ =>
        apply (count_string_of_uint u)
    end.
Qed.

Lemma count_app sep s t :
  count sep (s ++ t) = (count sep s + count sep t)%nat.
Proof.
  induction s as [|c rest IH]; simpl; [reflexivity|].
  rewrite IH. lia.
Qed.

Lemma parseDigits_not_digits maxVal s n :
  allDigits s = false -> parseDigits maxVal s n = None.
Proof.
  revert n. induction s as [|c rest IH]; simpl; intros n; [discriminate|].
  destruct (digitVal c) as [k|]; [|reflexivity].
  intros Hrest. destruct (maxVal <? n * 10 + k); [reflexivity|now apply IH].
Qed.

Lemma parseDigits_uint_sound maxVal d acc p :
  parseDigits maxVal (NilEmpty.string_of_uint d) acc = Some p ->
  p = uintValue d acc.
Proof.
  revert acc.
  induction d; intros acc;
    cbn [NilEmpty.string_of_uint uintValue parseDigits];
    [now intros [= <-]|..];
    match goal with
    | |- context [digitVal ?c] =>
        let k := eval vm_compute in (digitVal c) in
        change (digitVal c) with k; cbv iota beta
    end;
    match goal with
    | |- context [maxVal <? ?n1] =>
        destruct (maxVal <? n1); [discriminate|apply IHd]
    end.
Qed.

(** A number that does not fit [bits] bits is not read back. *)
Lemma ParseUint10_formatUint_large bits n :
  0 <= bits -> 2 ^ bits <= n -> ParseUint10 bits (formatUint n) = None.
Proof.
  intros Hb Hn.
  destruct (ParseUint10 bits (formatUint n)) as [p|] eqn:Hp; [|reflexivity].
  pose proof (ParseUint10_range _ _ _ Hb Hp) as Hrange.
  assert (Hval : uintValue (N.to_uint (Z.to_N n)) 0 = n).
  { rewrite <- of_uint_value.
    change (Pos.of_uint (N.to_uint (Z.to_N n)))
      with (N.of_uint (N.to_uint (Z.to_N n))).
    assert (0 < 2 ^ bits) by (apply Z.pow_pos_nonneg; lia).
    rewrite DecimalN.Unsigned.of_to. lia. }
  unfold ParseUint10, formatUint, NilZero.string_of_uint in Hp.
  destruct (N.to_uint (Z.to_N n)) as [|d|d|d|d|d|d|d|d|d|d];
    [simpl in Hval; assert (0 < 2 ^ bits) by (apply Z.pow_pos_nonneg; lia);
     lia|..];
    match type of Hp with
    | context [NilEmpty.string_of_uint ?u] =>
        simpl NilEmpty.string_of_uint in Hp;
        apply (parseDigits_uint_sound _ u 0) in Hp; lia
    end.
Qed.

(** ** Endpoints as text *)

Section EndpointFacts.

Context {World : Type} `{Platform World}.
Variable ParseIP : string -> option IP.

(** X1. An endpoint whose address prints without a colon and is read back
    by [net.ParseIP], and whose port is a [uint16], is recovered by
    [ParseEndpoint] from its [String()], whatever the default port. *)
Theorem X1_String_ParseEndpoint_roundtrip (e : Endpoint) (defaultPort : Z) :
  count ":" (IP_String (ep_IP e)) = O ->
  ParseIP (IP_String (ep_IP e)) = Some (ep_IP e) ->
  0 <= ep_Port e < 2 ^ 16 ->
  ParseEndpoint ParseIP (Endpoint_String e) defaultPort = (e, None).
Proof.
  intros Hcolon Hip Hport. unfold Endpoint_String, JoinHostPort.
  destruct (Nat.ltb_spec 0 (count ":" (IP_String (ep_IP e)))); [lia|].
  rewrite (ParseEndpoint_one_colon ParseIP _ _ defaultPort Hcolon
             (count_formatUint _)).
  rewrite Hip, (ParseUint10_formatUint 16 _ Hport). now destruct e.
Qed.

(** X2. An endpoint whose address prints with a colon (an IPv6 literal) is
    not accepted back: [ParseEndpoint] of its [String()] is
    [ErrInvalidEndpointString]. *)
Theorem X2_String_with_colon_rejected (e : Endpoint) (defaultPort : Z) :
  (0 < count ":" (IP_String (ep_IP e)))%nat ->
  ParseEndpoint ParseIP (Endpoint_String e) defaultPort =
    (zeroEndpoint, Some ErrInvalidEndpointString).
Proof.
  intros Hcolon. apply ParseEndpoint_many_colons.
  unfold Endpoint_String, JoinHostPort.
  destruct (Nat.ltb_spec 0 (count ":" (IP_String (ep_IP e)))); [|lia].
  rewrite !count_app. simpl. lia.
Qed.

(** X3. With a valid host, a port segment that is empty or holds a byte
    that is no decimal digit (a sign, a blank, a letter) gives
    [ErrFailedParsingPort], and the endpoint returned with the error
    already carries the parsed IP and the default port. *)
Theorem X3_port_must_be_digits (host port : string) (ip : IP)
  (defaultPort : Z) :
  count ":" host = O -> count ":" port = O ->
  ParseIP host = Some ip ->
  port = EmptyString \/ allDigits port = false ->
  ParseEndpoint ParseIP (host ++ ":" ++ port) defaultPort =
    (mkEndpoint ip defaultPort, Some ErrFailedParsingPort).
Proof.
  intros Hh Hp Hip Hbad.
  rewrite (ParseEndpoint_one_colon ParseIP _ _ defaultPort Hh Hp), Hip.
  assert (Hnone : ParseUint10 16 port = None).
  { destruct Hbad as [->|Hbad]; [reflexivity|].
    unfold ParseUint10. destruct port; [reflexivity|].
    now apply parseDigits_not_digits. }
  now rewrite Hnone.
Qed.

(** X4. A port number above 65535 is refused, not reduced modulo 2^16:
    with a valid host, the decimal text of any such number as port
    segment gives [ErrFailedParsingPort]. *)
Theorem X4_port_above_uint16_refused (host : string) (ip : IP)
  (n defaultPort : Z) :
  count ":" host = O ->
  ParseIP host = Some ip ->
  2 ^ 16 <= n ->
  ParseEndpoint ParseIP (host ++ ":" ++ formatUint n) defaultPort =
    (mkEndpoint ip defaultPort, Some ErrFailedParsingPort).
Proof.
  intros Hh Hip Hn.
  rewrite (ParseEndpoint_one_colon ParseIP _ _ defaultPort Hh
             (count_formatUint n)), Hip.
  now rewrite (ParseUint10_formatUint_large 16 n ltac:(lia) Hn).
Qed.


End EndpointFacts.

(** ** The cache on its own *)

(** X6. What [Set] stores under a key, [Get] returns for that key with
    [ok] true; every other key reads as before; [Set] touches nothing but
    the map, and [Get] changes nothing. *)
Theorem X6_cache_Set_Get {World : Type} (key : string)
  (rec : dnsCacheRecord) (s : Sys World) :
  cache_Get key (snd (cache_Set key rec s)) =
    ((rec, true), snd (cache_Set key rec s)) /\
  (forall other, other <> key ->
     fst (cache_Get other (snd (cache_Set key rec s))) =
       fst (cache_Get other s)) /\
  sys_world (snd (cache_Set key rec s)) = sys_world s /\
  sys_log (snd (cache_Set key rec s)) = sys_log s.
Proof.
  unfold cache_Get, cache_Set, records_Get, records_Set. simpl.
  rewrite lookup_insert_eq. repeat split.
  intros other Hne. now rewrite lookup_insert_ne.
Qed.

(** X7. The last [Set] for a key wins, [Set]s for different keys do not
    depend on their order, and in a new cache every key reads as the zero
    record with [ok] false. *)
Theorem X7_cache_overwrite {World : Type} (k1 k2 : string)
  (r1 r2 : dnsCacheRecord) (s : Sys World) :
  snd (cache_Set k1 r2 (snd (cache_Set k1 r1 s))) = snd (cache_Set k1 r2 s) /\
  (k1 <> k2 ->
     snd (cache_Set k2 r2 (snd (cache_Set k1 r1 s))) =
       snd (cache_Set k1 r1 (snd (cache_Set k2 r2 s)))) /\
  fst (cache_Get k1 (snd (newDNSCache s))) = (zeroRecord, false).
Proof.
  unfold cache_Get, cache_Set, newDNSCache, records_Get, records_Set. simpl.
  split; [now rewrite insert_insert_eq|]. split; [|reflexivity].
  intros Hne. f_equal. now apply insert_insert_ne.
Qed.

(** ** More on LookupIP *)

Section MoreClientFacts.

Context {World : Type} `{Platform World}.

Implicit Types (s : Sys World) (c : SimpleDNSClient) (host : string).

(** What one pass over the servers can end in, and what it has then done
    to the cache. *)
Lemma lookupServers_outcome d host srvs s :
  match fst (lookupServers d host srvs s) with
  | Returned ips1 None =>
      exists rec,
        ips rec = ips1 /\
        sys_records (snd (lookupServers d host srvs s)) =
          <[host := rec]> (sys_records s)
  | Returned ips1 (Some e) =>
      ips1 = [] /\ isTimeout (Some e) = false /\
      sys_records (snd (lookupServers d host srvs s)) = sys_records s
  | Panicked =>
      sys_records (snd (lookupServers d host srvs s)) = sys_records s /\
      exists pre srv post w w',
        srvs = pre ++ srv :: post /\
        exchange d (SetQuestion (Fqdn host) TypeA) (Endpoint_String srv) w =
          ((None, None), w')
  end.
Proof.
  revert s. induction srvs as [|srv rest IH]; intros s.
  - simpl. now repeat split.
  - destruct (exchange d (SetQuestion (Fqdn host) TypeA)
                (Endpoint_String srv) (sys_world s))
      as [[r err] w] eqn:Hex.
    destruct (isTimeout err) eqn:Hto.
    + rewrite (lookupServers_timeout _ _ _ _ _ _ _ Hex Hto).
      specialize (IH (mkSys w (sys_records s)
                        (sys_log s ++ [attempt d host srv]))).
      destruct (fst (lookupServers d host rest _)) as [ips1 [e|]|];
        simpl in IH; try exact IH.
      destruct IH as (Hrec & pre & srv' & post & w1 & w2 & -> & Hnil).
      split; [exact Hrec|].
      now exists (srv :: pre), srv', post, w1, w2.
    + destruct err as [e|].
      * rewrite (lookupServers_error _ _ _ _ _ _ _ _ Hex Hto).
        simpl. now repeat split.
      * destruct r as [r|].
        -- destruct (time_Now w) as [t w'] eqn:Hnow.
           rewrite (lookupServers_answer _ _ _ _ _ _ _ _ _ Hex Hnow).
           simpl. eexists. split; [|reflexivity]. reflexivity.
        -- rewrite (lookupServers_nil_response _ _ _ _ _ _ Hex).
           simpl. split; [reflexivity|].
           now exists [], srv, rest, (sys_world s), w.
Qed.

(** X8. A client that [NewSimpleDNSClient] has just built holds nothing in
    its cache: its first [LookupIP], for any host, begins with an exchange
    with the first server given, under the timeout of the client. *)
Theorem X8_first_lookup_asks_first_server
  (srvs : Endpoints) (o : option DNSClientOptions) s c s' host :
  NewSimpleDNSClient srvs o s = ((Some c, None), s') ->
  exists srv rest more,
    srvs = srv :: rest /\
    sys_log (snd (LookupIP c host s')) =
      sys_log s ++ attempt (Timeout (opts c)) host srv :: more.
Proof.
  intros Hnew.
  destruct srvs as [|srv rest]; [discriminate|].
  unfold NewSimpleDNSClient in Hnew. simpl in Hnew.
  injection Hnew as <- <-.
  exists srv, rest.
  set (c := mkClient (srv :: rest) _).
  set (s' := mkSys (sys_world s) ∅ (sys_log s)).
  assert (Hmiss : cacheLookup host s' = ((zeroRecord, false), s'))
    by (apply cacheLookup_absent; apply lookup_empty).
  rewrite (LookupIP_miss c _ _ _ _ Hmiss).
  change (servers c) with (srv :: rest).
  destruct (exchange (Timeout (opts c)) (SetQuestion (Fqdn host) TypeA)
              (Endpoint_String srv) (sys_world s')) as [[r err] w] eqn:Hex.
  destruct (isTimeout err) eqn:Hto.
  - rewrite (lookupServers_timeout _ _ _ _ _ _ _ Hex Hto).
    destruct (lookupServers_log (Timeout (opts c)) host rest
                (mkSys w (sys_records s')
                   (sys_log s' ++ [attempt (Timeout (opts c)) host srv])))
      as [n Hn].
    eexists. split; [reflexivity|]. rewrite Hn. simpl.
    now rewrite <- app_assoc.
  - exists []. split; [reflexivity|]. destruct err as [e|].
    + now rewrite (lookupServers_error _ _ _ _ _ _ _ _ Hex Hto).
    + destruct r as [r|].
      * destruct (time_Now w) as [t w'] eqn:Hnow.
        now rewrite (lookupServers_answer _ _ _ _ _ _ _ _ _ Hex Hnow).
      * now rewrite (lookupServers_nil_response _ _ _ _ _ _ Hex).
Qed.

(** X9. Fail-over to an answer: when the servers before [srv] time out and
    [srv] answers without error, the call returns the addresses of the
    answer with a nil error, has exchanged with exactly these servers in
    order (none after [srv]), and has put under the host, and under no
    other key, a record of the response, its addresses and the expiry. *)
Theorem X9_failover_to_answer
  c host s entry s0 pre srv post w r w' t w'' :
  cacheLookup host s = ((entry, false), s0) ->
  servers c = pre ++ srv :: post ->
  timeOuts (Timeout (opts c)) host pre (sys_world s0) = Some w ->
  exchange (Timeout (opts c)) (SetQuestion (Fqdn host) TypeA)
           (Endpoint_String srv) w = ((Some r, None), w') ->
  time_Now w' = (t, w'') ->
  LookupIP c host s =
    (Returned (fst (scanAnswers (Answer r))) None,
     mkSys w''
       (<[host := mkRecord (Some r) (fst (scanAnswers (Answer r)))
                    (t + Duration_mul Second (snd (scanAnswers (Answer r))))]>
          (sys_records s))
       (sys_log s ++ map (attempt (Timeout (opts c)) host) (pre ++ [srv]))).
Proof.
  intros Hc Hsrv Hto Hex Hnow. rewrite scanAnswers_eq. simpl.
  exact (LookupIP_answer _ _ _ _ _ _ _ _ _ _ _ _ _ Hc Hsrv Hto Hex Hnow).
Qed.

(** X10. An error that [LookupIP] returns comes with nil addresses, is
    never a timeout (timeouts are used up by the fail-over), and leaves the
    cache as it was. *)
Theorem X10_errors_leave_no_trace c host s ips1 e s' :
  LookupIP c host s = (Returned ips1 (Some e), s') ->
  ips1 = [] /\ isTimeout (Some e) = false /\ sys_records s' = sys_records s.
Proof.
  destruct (cacheLookup host s) as [[entry good] s0] eqn:Hc.
  destruct (cacheLookup_frame _ _ _ _ Hc) as [Hrec _].
  destruct good.
  - rewrite (LookupIP_hit _ _ _ _ _ Hc). discriminate.
  - rewrite (LookupIP_miss _ _ _ _ _ Hc). intros Hrun.
    pose proof (lookupServers_outcome (Timeout (opts c)) host
                  (servers c) s0) as Hout.
    rewrite Hrun in Hout. simpl in Hout. now rewrite <- Hrec.
Qed.

(** X11. A call for one host never changes what the cache holds for
    another key. *)
Theorem X11_other_keys_untouched c host s other :
  other <> host ->
  sys_records (snd (LookupIP c host s)) !! other = sys_records s !! other.
Proof.
  intros Hne.
  destruct (cacheLookup host s) as [[entry good] s0] eqn:Hc.
  destruct (cacheLookup_frame _ _ _ _ Hc) as [Hrec _].
  destruct good.
  - rewrite (LookupIP_hit _ _ _ _ _ Hc). simpl. now rewrite Hrec.
  - rewrite (LookupIP_miss _ _ _ _ _ Hc).
    pose proof (lookupServers_outcome (Timeout (opts c)) host
                  (servers c) s0) as Hout.
    destruct (fst (lookupServers _ host (servers c) s0)) as [ips1 [e|]|].
    + destruct Hout as (_ & _ & ->). now rewrite Hrec.
    + destruct Hout as (rec & _ & ->).
      rewrite lookup_insert_ne by congruence. now rewrite Hrec.
    + destruct Hout as [-> _]. now rewrite Hrec.
Qed.

(** X12. One call performs at most one exchange per configured server and
    never repeats one: what it adds to the trace is the attempts for the
    first [n] servers, [n] at most their number, each a type-A question
    for the qualified host name under the client's timeout. *)
Theorem X12_at_most_one_exchange_per_server c host s :
  exists n,
    (n <= length (servers c))%nat /\
    sys_log (snd (LookupIP c host s)) =
      sys_log s ++ map (attempt (Timeout (opts c)) host) (take n (servers c)) /\
    length (sys_log (snd (LookupIP c host s))) = (length (sys_log s) + n)%nat.
Proof.
  assert (Hgoal : exists n,
    sys_log (snd (LookupIP c host s)) =
      sys_log s ++ map (attempt (Timeout (opts c)) host) (take n (servers c))).
  { destruct (cacheLookup host s) as [[entry good] s0] eqn:Hc.
    destruct (cacheLookup_frame _ _ _ _ Hc) as [_ Hlog].
    destruct good.
    - exists O. rewrite (LookupIP_hit _ _ _ _ _ Hc). simpl.
      now rewrite Hlog, app_nil_r.
    - rewrite (LookupIP_miss _ _ _ _ _ Hc).
      destruct (lookupServers_log (Timeout (opts c)) host (servers c) s0)
        as [n Hn].
      exists n. now rewrite Hn, Hlog. }
  destruct Hgoal as [n Hn].
  exists (length (take n (servers c))).
  assert (Hsame : take (length (take n (servers c))) (servers c) =
                  take n (servers c)).
  { rewrite length_take. destruct (Nat.le_ge_cases n (length (servers c))).
    - now rewrite Nat.min_l.
    - rewrite Nat.min_r by assumption. now rewrite !take_ge by lia. }
  split; [rewrite length_take; lia|].
  rewrite Hsame. split; [exact Hn|].
  now rewrite Hn, length_app, length_map.
Qed.


Lemma stepTTL_zero acc : 0 <= acc -> stepTTL acc 0 = 0.
Proof.
  intros Hacc. unfold stepTTL.
  destruct (Z.eqb_spec acc 0); simpl; [reflexivity|].
  destruct (Z.ltb_spec 0 acc); lia.
Qed.

Lemma fold_stepTTL_nonneg ttls acc :
  0 <= acc -> Forall (fun t => 0 <= t) ttls -> 0 <= fold_left stepTTL ttls acc.
Proof.
  intros Hacc Hall. revert acc Hacc.
  induction Hall as [|t rest Ht _ IH]; intros acc Hacc; simpl; [exact Hacc|].
  apply IH. unfold stepTTL. destruct (_ || _); lia.
Qed.

Lemma fold_stepTTL_from_zero suf :
  Forall (fun t => 0 < t) suf -> fold_left stepTTL suf 0 = minTTL suf.
Proof.
  destruct 1 as [|t rest Ht Hrest]; [reflexivity|].
  simpl. change (stepTTL 0 t) with t. now apply stepTTL_min.
Qed.

Lemma fold_stepTTL_choice ttls acc :
  fold_left stepTTL ttls acc = acc \/ In (fold_left stepTTL ttls acc) ttls.
Proof.
  revert acc. induction ttls as [|t rest IH]; intros acc; simpl; [now left|].
  destruct (IH (stepTTL acc t)) as [Heq|Hin]; [|now right; right].
  rewrite Heq. unfold stepTTL. destruct (_ || _); [right; now left|now left].
Qed.

Lemma fold_stepTTL_zeros ttls :
  Forall (fun t => t = 0) ttls -> fold_left stepTTL ttls 0 = 0.
Proof.
  induction 1 as [|t rest -> _ IH]; [reflexivity|]. exact IH.
Qed.

(** X14. When no A record of the answer has TTL 0, the record stored
    expires the least TTL of the A records, in seconds, after the time read
    on the response: a call that finds it before that time is served the
    same addresses from the cache, a call at or after that time goes to the
    servers. *)
Theorem X14_cached_for_least_ttl
  c host s entry s0 pre srv post w r w' t w'' :
  cacheLookup host s = ((entry, false), s0) ->
  servers c = pre ++ srv :: post ->
  timeOuts (Timeout (opts c)) host pre (sys_world s0) = Some w ->
  exchange (Timeout (opts c)) (SetQuestion (Fqdn host) TypeA)
           (Endpoint_String srv) w = ((Some r, None), w') ->
  time_Now w' = (t, w'') ->
  Forall validTTL (addressTTLs (Answer r)) ->
  Forall (fun ttl => 0 < ttl) (addressTTLs (Answer r)) ->
  expires <$> sys_records (snd (LookupIP c host s)) !! host =
    Some (t + minTTL (addressTTLs (Answer r)) * 1000000000) /\
  (forall c2 s2 t2 w2,
     sys_records s2 !! host =
       sys_records (snd (LookupIP c host s)) !! host ->
     time_Now (sys_world s2) = (t2, w2) ->
     (t2 < t + minTTL (addressTTLs (Answer r)) * 1000000000 ->
        LookupIP c2 host s2 =
          (Returned (addresses (Answer r)) None,
           mkSys w2 (sys_records s2) (sys_log s2))) /\
     (t + minTTL (addressTTLs (Answer r)) * 1000000000 <= t2 ->
        LookupIP c2 host s2 =
          lookupServers (Timeout (opts c2)) host (servers c2)
            (mkSys w2 (sys_records s2) (sys_log s2)))).
Proof.
  intros Hc Hsrv Hto Hex Hnow Hvalid Hpos.
  rewrite (LookupIP_answer _ _ _ _ _ _ _ _ _ _ _ _ _ Hc Hsrv Hto Hex Hnow).
  simpl. rewrite lookup_insert_eq. simpl.
  pose proof (scanAnswers_min_positive _ Hpos) as Hmin.
  rewrite scanAnswers_eq in Hmin. simpl in Hmin. rewrite Hmin.
  rewrite (Duration_mul_Second _ (minTTL_valid _ Hvalid)).
  split; [reflexivity|].
  intros c2 s2 t2 w2 Hrec Hnow2.
  pose proof (cacheLookup_present _ _ _ _ _ Hrec Hnow2) as Hc2.
  unfold Time_After in Hc2. simpl in Hc2.
  split; intros Ht2.
  - destruct (Z.ltb_spec t2
                (t + minTTL (addressTTLs (Answer r)) * 1000000000)); [|lia].
    now rewrite (LookupIP_hit _ _ _ _ _ Hc2).
  - destruct (Z.ltb_spec t2
                (t + minTTL (addressTTLs (Answer r)) * 1000000000)); [lia|].
    now rewrite (LookupIP_miss _ _ _ _ _ Hc2).
Qed.

(** X15. What the loop leaves in [shortestTTL] when an A record has TTL 0:
    the least TTL of the A records that come after the last such record
    (0 if none comes after it), the records before it being forgotten. *)
Theorem X15_zero_ttl_restarts_minimum (answers : list RR) (pre suf : list Z) :
  addressTTLs answers = pre ++ 0 :: suf ->
  Forall (fun t => 0 <= t) pre ->
  Forall (fun t => 0 < t) suf ->
  snd (scanAnswers answers) = minTTL suf.
Proof.
  intros Hsplit Hpre Hsuf.
  rewrite scanAnswers_eq, Hsplit. simpl.
  rewrite fold_left_app. simpl.
  rewrite stepTTL_zero by (apply fold_stepTTL_nonneg; [lia|exact Hpre]).
  now apply fold_stepTTL_from_zero.
Qed.

(** X16. With TTLs of 32 bits the expiry never wraps: the record stored
    for an answer expires a whole number of seconds after the time read on
    the response, that number being 0 or the TTL of one of the A records;
    so the expiry is not before that time and at most 2^32 - 1 seconds
    after it. *)
Theorem X16_expiry_bounds
  c host s entry s0 pre srv post w r w' t w'' :
  cacheLookup host s = ((entry, false), s0) ->
  servers c = pre ++ srv :: post ->
  timeOuts (Timeout (opts c)) host pre (sys_world s0) = Some w ->
  exchange (Timeout (opts c)) (SetQuestion (Fqdn host) TypeA)
           (Endpoint_String srv) w = ((Some r, None), w') ->
  time_Now w' = (t, w'') ->
  Forall validTTL (addressTTLs (Answer r)) ->
  exists ttl,
    (ttl = 0 \/ In ttl (addressTTLs (Answer r))) /\
    expires <$> sys_records (snd (LookupIP c host s)) !! host =
      Some (t + ttl * 1000000000) /\
    t <= t + ttl * 1000000000 <= t + maxUint32 * 1000000000.
Proof.
  intros Hc Hsrv Hto Hex Hnow Hvalid.
  rewrite (LookupIP_answer _ _ _ _ _ _ _ _ _ _ _ _ _ Hc Hsrv Hto Hex Hnow).
  simpl. rewrite lookup_insert_eq. simpl.
  exists (fold_left stepTTL (addressTTLs (Answer r)) 0).
  pose proof (fold_stepTTL_choice (addressTTLs (Answer r)) 0) as Hchoice.
  assert (Hv : validTTL (fold_left stepTTL (addressTTLs (Answer r)) 0)).
  { destruct Hchoice as [->|Hin]; [unfold validTTL, maxUint32; lia|].
    rewrite Forall_forall in Hvalid. apply Hvalid.
    now apply list_elem_of_In. }
  split; [exact Hchoice|].
  rewrite (Duration_mul_Second _ Hv). split; [reflexivity|].
  unfold validTTL in Hv. lia.
Qed.

(** X17. An answer whose A records all have TTL 0 is returned but cannot
    be served from the cache: the record stored expires at the time read on
    the response, and a later call, the clock not having gone back, goes to
    the servers. *)
Theorem X17_zero_ttl_answer_not_cached
  c host s entry s0 pre srv post w r w' t w'' :
  cacheLookup host s = ((entry, false), s0) ->
  servers c = pre ++ srv :: post ->
  timeOuts (Timeout (opts c)) host pre (sys_world s0) = Some w ->
  exchange (Timeout (opts c)) (SetQuestion (Fqdn host) TypeA)
           (Endpoint_String srv) w = ((Some r, None), w') ->
  time_Now w' = (t, w'') ->
  Forall (fun ttl => ttl = 0) (addressTTLs (Answer r)) ->
  fst (LookupIP c host s) = Returned (addresses (Answer r)) None /\
  sys_records (snd (LookupIP c host s)) !! host =
    Some (mkRecord (Some r) (addresses (Answer r)) t) /\
  (forall c2 s2 t2 w2,
     sys_records s2 !! host =
       Some (mkRecord (Some r) (addresses (Answer r)) t) ->
     time_Now (sys_world s2) = (t2, w2) ->
     t <= t2 ->
     LookupIP c2 host s2 =
       lookupServers (Timeout (opts c2)) host (servers c2)
         (mkSys w2 (sys_records s2) (sys_log s2))).
Proof.
  intros Hc Hsrv Hto Hex Hnow Hzero.
  rewrite (LookupIP_answer _ _ _ _ _ _ _ _ _ _ _ _ _ Hc Hsrv Hto Hex Hnow).
  simpl. rewrite lookup_insert_eq, (fold_stepTTL_zeros _ Hzero).
  change (Duration_mul Second 0) with 0. rewrite Z.add_0_r.
  split; [reflexivity|]. split; [reflexivity|].
  intros c2 s2 t2 w2 Hrec Hnow2 Hlater.
  pose proof (cacheLookup_present _ _ _ _ _ Hrec Hnow2) as Hc2.
  unfold Time_After in Hc2. simpl in Hc2.
  destruct (Z.ltb_spec t2 t); [lia|].
  now rewrite (LookupIP_miss _ _ _ _ _ Hc2).
Qed.

End MoreClientFacts.

(** ** The further properties at concrete inputs *)

Lemma X1_String_ParseEndpoint_roundtrip_witness :
  ParseEndpoint parseIPv4 (Endpoint_String srv3) 80 = (srv3, None).
Proof.
  apply (@X1_String_ParseEndpoint_roundtrip World platform parseIPv4 srv3 80).
  - reflexivity.
  - vm_compute. reflexivity.
  - simpl. lia.
Defined.

Lemma X2_String_with_colon_rejected_witness :
  ParseEndpoint parseIPv4 (@Endpoint_String World platform6 srv1) 53 =
    (zeroEndpoint, Some ErrInvalidEndpointString).
Proof.
  apply (@X2_String_with_colon_rejected World platform6 parseIPv4 srv1 53).
  vm_compute. lia.
Defined.

Lemma X3_port_must_be_digits_witness :
  ParseEndpoint parseIPv4 "10.0.0.1:+53" 80 =
    (mkEndpoint ip1 80, Some ErrFailedParsingPort) /\
  ParseEndpoint parseIPv4 "10.0.0.1:" 80 =
    (mkEndpoint ip1 80, Some ErrFailedParsingPort).
Proof.
  split.
  - apply (X3_port_must_be_digits parseIPv4 "10.0.0.1" "+53" ip1 80);
      [reflexivity|reflexivity|vm_compute; reflexivity|right; reflexivity].
  - apply (X3_port_must_be_digits parseIPv4 "10.0.0.1" "" ip1 80);
      [reflexivity|reflexivity|vm_compute; reflexivity|left; reflexivity].
Defined.

Lemma X4_port_above_uint16_refused_witness :
  ParseEndpoint parseIPv4 "10.0.0.1:65536" 80 =
    (mkEndpoint ip1 80, Some ErrFailedParsingPort).
Proof.
  apply (X4_port_above_uint16_refused parseIPv4 "10.0.0.1" ip1 65536 80);
    [reflexivity|vm_compute; reflexivity|lia].
Defined.


Lemma X6_cache_Set_Get_witness :
  fst (cache_Get "example.com" (snd (cache_Set host freshRecord (start [])))) =
    fst (cache_Get "example.com" (start [])).
Proof.
  apply (proj1 (proj2 (X6_cache_Set_Get host freshRecord (start [])))).
  discriminate.
Defined.

Lemma X7_cache_overwrite_witness :
  snd (cache_Set "example.com" staleRecord
         (snd (cache_Set host freshRecord (start [])))) =
    snd (cache_Set host freshRecord
           (snd (cache_Set "example.com" staleRecord (start [])))).
Proof.
  apply (proj1 (proj2 (X7_cache_overwrite host "example.com"
                         freshRecord staleRecord (start [])))).
  discriminate.
Defined.

Lemma X8_first_lookup_asks_first_server_witness :
  exists srv rest more,
    [srv1; srv2] = srv :: rest /\
    sys_log (snd (LookupIP (mkClient [srv1; srv2]
                              (mkOptions defaultDNSClientTimeout))
                    host (start [(5, timedOut)]))) =
      sys_log (start [(5, timedOut)]) ++
        attempt defaultDNSClientTimeout host srv :: more.
Proof.
  apply (@X8_first_lookup_asks_first_server World platform
           [srv1; srv2] None (start [(5, timedOut)])).
  reflexivity.
Defined.

Lemma X9_failover_to_answer_witness :
  fst (LookupIP client host
         (start [(5, timedOut); (6, timedOut);
                 (7, reply [rrA 30 ip1; rrA 10 ip2])])) =
    Returned [ip1; ip2] None.
Proof.
  rewrite (@X9_failover_to_answer World platform client host
             (start [(5, timedOut); (6, timedOut);
                     (7, reply [rrA 30 ip1; rrA 10 ip2])])
             zeroRecord _ [srv1; srv2] srv3 []
             (11, [(7, reply [rrA 30 ip1; rrA 10 ip2])])
             twoAddresses (18, []) 18 (18, [])
             eq_refl eq_refl eq_refl eq_refl eq_refl).
  reflexivity.
Defined.

Lemma X10_errors_leave_no_trace_witness :
  sys_records (snd (LookupIP client host
                      (start [(5, timedOut); (7, refused)]))) =
    sys_records (start [(5, timedOut); (7, refused)]).
Proof.
  refine (proj2 (proj2 (@X10_errors_leave_no_trace World platform client host
                          (start [(5, timedOut); (7, refused)])
                          [] (PlainError "connection refused") _ _))).
  vm_compute. reflexivity.
Defined.

Lemma X11_other_keys_untouched_witness :
  sys_records (snd (LookupIP client "example.com" (cached staleRecord)))
    !! host = Some staleRecord.
Proof.
  rewrite (@X11_other_keys_untouched World platform client "example.com"
             (cached staleRecord) host ltac:(discriminate)).
  apply lookup_singleton_eq.
Defined.


Lemma valid_30_10 : Forall validTTL [30; 10].
Proof. repeat constructor; unfold maxUint32; lia. Qed.

Lemma X14_cached_for_least_ttl_witness :
  expires <$>
    sys_records (snd (LookupIP client host
                        (start [(7, (Some twoAddresses, None))]))) !! host =
    Some (7 + 10 * 1000000000).
Proof.
  apply (proj1 (@X14_cached_for_least_ttl World platform client host
                  (start [(7, (Some twoAddresses, None))])
                  zeroRecord _ [] srv1 [srv2; srv3]
                  (0, [(7, (Some twoAddresses, None))])
                  twoAddresses (7, []) 7 (7, [])
                  eq_refl eq_refl eq_refl eq_refl eq_refl valid_30_10
                  ltac:(repeat constructor; lia))).
Defined.

Lemma X15_zero_ttl_restarts_minimum_witness :
  snd (scanAnswers [rrA 30 ip1; rrA 0 ip2; rrCNAME 5; rrA 50 ip3;
                    rrA 40 ip1]) = 40.
Proof.
  apply (X15_zero_ttl_restarts_minimum
           [rrA 30 ip1; rrA 0 ip2; rrCNAME 5; rrA 50 ip3; rrA 40 ip1]
           [30] [50; 40] eq_refl);
    repeat constructor; lia.
Defined.

Lemma X16_expiry_bounds_witness :
  exists ttl,
    (ttl = 0 \/ In ttl [30; 10]) /\
    expires <$>
      sys_records (snd (LookupIP client host
                          (start [(7, (Some twoAddresses, None))]))) !! host =
      Some (7 + ttl * 1000000000) /\
    7 <= 7 + ttl * 1000000000 <= 7 + maxUint32 * 1000000000.
Proof.
  apply (@X16_expiry_bounds World platform client host
           (start [(7, (Some twoAddresses, None))])
           zeroRecord _ [] srv1 [srv2; srv3]
           (0, [(7, (Some twoAddresses, None))])
           twoAddresses (7, []) 7 (7, [])
           eq_refl eq_refl eq_refl eq_refl eq_refl valid_30_10).
Defined.

Lemma X17_zero_ttl_answer_not_cached_witness :
  fst (LookupIP client host (start [(7, reply [rrA 0 ip1; rrA 0 ip2])])) =
    Returned [ip1; ip2] None.
Proof.
  apply (@X17_zero_ttl_answer_not_cached World platform client host
           (start [(7, reply [rrA 0 ip1; rrA 0 ip2])])
           zeroRecord _ [] srv1 [srv2; srv3]
           (0, [(7, reply [rrA 0 ip1; rrA 0 ip2])])
           (mkMsg [mkQuestion "example.org." TypeA] [rrA 0 ip1; rrA 0 ip2])
           (7, []) 7 (7, [])
           eq_refl eq_refl eq_refl eq_refl eq_refl
           ltac:(repeat constructor)).
Defined.

(** ** Random with a single endpoint *)

(** X18. With one endpoint in the list there is nothing to choose:
    [Random] returns it, whatever the source draws. *)
Theorem X18_Random_single {Rand : Type} (draw : Z -> Rand -> Z * Rand)
  (x : Endpoint) (g : Rand) :
  (forall n g', 0 < n -> 0 <= fst (draw n g') < n) ->
  fst (Random draw [x] g) = Some x.
Proof.
  intros Hrange. unfold Random, rand_Intn.
  change (Z.of_nat (length [x])) with 1.
  change (1 <=? 0) with false. cbv iota.
  pose proof (Hrange 1 g ltac:(lia)) as Hk.
  destruct (draw 1 g) as [k g']. simpl in Hk.
  assert (k = 0) as -> by lia. reflexivity.
Qed.

Lemma X18_Random_single_witness :
  fst (Random Demo.draw [srv2] 41) = Some srv2.
Proof.
  apply (X18_Random_single Demo.draw srv2 41). exact draw_in_range.
Defined.
